(** * GitHub -> Webex relay bot: the [POST /github] webhook handler

    A shallow embedding of [app.js] (the Express application loaded by
    [loader.js]): the signature gate built on Node's [crypto] module, the
    per-event message templates, and the relay to the Webex SDK.

    Conventions.
    - A byte is a [Z] in [0, 256); a [Buffer] is a list of bytes.
    - A JavaScript string is a [string]; each character stands for the code
      point with the same number (U+0000 .. U+00FF).  This is the whole
      domain of an HTTP header value as Node delivers it (latin1 decoding).
    - An expression that can raise returns a [result]; the handler runs in a
      writer monad over the observable effects (console lines and SDK calls).
*)

From Stdlib Require Import ZArith List String Ascii Bool Lia DecimalString.
Import ListNotations.
Local Open Scope string_scope.
Local Open Scope list_scope.
Local Open Scope Z_scope.

(* ===================================================================== *)
(** ** Node's [crypto]: SHA-256 (FIPS 180-4) and HMAC (RFC 2104)         *)
(* ===================================================================== *)

Module Sha256.

Definition wrap32 (x : Z) : Z := x mod 2 ^ 32.
Definition add32 (x y : Z) : Z := wrap32 (x + y).
Definition rotr (n x : Z) : Z :=
  Z.lor (Z.shiftr x n) (wrap32 (Z.shiftl x (32 - n))).
Definition not32 (x : Z) : Z := 2 ^ 32 - 1 - x.

Definition Ch (x y z : Z) : Z :=
  Z.lxor (Z.land x y) (Z.land (not32 x) z).
Definition Maj (x y z : Z) : Z :=
  Z.lxor (Z.lxor (Z.land x y) (Z.land x z)) (Z.land y z).
Definition bsig0 (x : Z) : Z :=
  Z.lxor (Z.lxor (rotr 2 x) (rotr 13 x)) (rotr 22 x).
Definition bsig1 (x : Z) : Z :=
  Z.lxor (Z.lxor (rotr 6 x) (rotr 11 x)) (rotr 25 x).
Definition ssig0 (x : Z) : Z :=
  Z.lxor (Z.lxor (rotr 7 x) (rotr 18 x)) (Z.shiftr x 3).
Definition ssig1 (x : Z) : Z :=
  Z.lxor (Z.lxor (rotr 17 x) (rotr 19 x)) (Z.shiftr x 10).

(** The constants are not tabulated but derived, as FIPS 180-4 defines
    them: the first 32 bits of the fractional parts of the cube roots (for
    the round constants) and of the square roots (for the initial state) of
    the first primes. *)
Definition is_prime (n : nat) : bool :=
  forallb (fun d => negb (Nat.eqb (Nat.modulo n d) 0)) (seq 2 (n - 2)).

Definition primes : list Z :=
  map Z.of_nat (filter is_prime (seq 2 310)).

(** The largest [r] below [2 ^ bits] with [r ^ k <= n]. *)
Fixpoint root (k : Z) (n : Z) (bits : nat) (r : Z) : Z :=
  match bits with
  | O => r
  | S b =>
      let c := r + 2 ^ Z.of_nat b in
      root k n b (if c ^ k <=? n then c else r)
  end.

Definition fraction_bits (k : Z) (p : Z) : Z :=
  wrap32 (root k (p * 2 ^ (32 * k)) 40 0).

Definition K : list Z :=
  Eval vm_compute in map (fraction_bits 3) primes.

(** The eight working words. *)
Record state : Type := State
  { ha : Z; hb : Z; hc : Z; hd : Z; he : Z; hf : Z; hg : Z; hh : Z }.

Definition H0 : state :=
  Eval vm_compute in
    let h i := fraction_bits 2 (nth i primes 0) in
    State (h 0%nat) (h 1%nat) (h 2%nat) (h 3%nat)
          (h 4%nat) (h 5%nat) (h 6%nat) (h 7%nat).

(** Padding: one 0x80 byte, zeros up to 56 mod 64, the bit length on
    eight big-endian bytes. *)
Definition be_bytes (n : nat) (x : Z) : list Z :=
  map (fun i => Z.shiftr x (8 * Z.of_nat i) mod 256) (rev (seq 0 n)).

Definition pad (msg : list Z) : list Z :=
  let len := Z.of_nat (List.length msg) in
  let zeros := Z.to_nat ((55 - len) mod 64) in
  msg ++ [0x80] ++ repeat 0 zeros ++ be_bytes 8 (8 * len).

Fixpoint be_words (n : nat) (bytes : list Z) : list Z :=
  match n, bytes with
  | S n', b0 :: b1 :: b2 :: b3 :: rest =>
      (((b0 * 256 + b1) * 256 + b2) * 256 + b3) :: be_words n' rest
  | _, _ => []
  end.

(** Message schedule: the sixteen words of the block, then 48 derived. *)
Fixpoint extend (n : nat) (w : list Z) : list Z :=
  match n with
  | O => w
  | S n' =>
      let t   := List.length w in
      let at_ k := nth (t - k) w 0 in
      extend n' (w ++ [add32 (add32 (ssig1 (at_ 2%nat)) (at_ 7%nat))
                             (add32 (ssig0 (at_ 15%nat)) (at_ 16%nat))])
  end.

Definition round (s : state) (kw : Z * Z) : state :=
  let '(k, w) := kw in
  let t1 := add32 (add32 (add32 (hh s) (bsig1 (he s)))
                         (add32 (Ch (he s) (hf s) (hg s)) k)) w in
  let t2 := add32 (bsig0 (ha s)) (Maj (ha s) (hb s) (hc s)) in
  State (add32 t1 t2) (ha s) (hb s) (hc s)
        (add32 (hd s) t1) (he s) (hf s) (hg s).

Definition compress (h : state) (block : list Z) : state :=
  let w := extend 48 (be_words 16 block) in
  let s := fold_left round (combine K w) h in
  State (add32 (ha h) (ha s)) (add32 (hb h) (hb s))
        (add32 (hc h) (hc s)) (add32 (hd h) (hd s))
        (add32 (he h) (he s)) (add32 (hf h) (hf s))
        (add32 (hg h) (hg s)) (add32 (hh h) (hh s)).

(** Fold [compress] over the 64-byte blocks; [n] bounds their number. *)
Fixpoint blocks (n : nat) (h : state) (bytes : list Z) : state :=
  match n, bytes with
  | S n', _ :: _ => blocks n' (compress h (firstn 64 bytes)) (skipn 64 bytes)
  | _, _ => h
  end.

Definition output (s : state) : list Z :=
  flat_map (be_bytes 4)
           [ha s; hb s; hc s; hd s; he s; hf s; hg s; hh s].

Definition digest (msg : list Z) : list Z :=
  let p := pad msg in
  output (blocks (List.length p) H0 p).

End Sha256.

Module Hmac.

Definition block_size : nat := 64.

(** Keys longer than a block are hashed, shorter ones zero-filled. *)
Definition block_key (key : list Z) : list Z :=
  let k := if (Nat.ltb block_size (List.length key)) then Sha256.digest key
           else key in
  k ++ repeat 0 (block_size - List.length k).

Definition sha256 (key msg : list Z) : list Z :=
  let k := block_key key in
  let ipad := map (Z.lxor 0x36) k in
  let opad := map (Z.lxor 0x5c) k in
  Sha256.digest (opad ++ Sha256.digest (ipad ++ msg)).

End Hmac.

(* ===================================================================== *)
(** ** Buffers and encodings                                             *)
(* ===================================================================== *)

Definition Buffer : Type := list Z.

Definition code (c : ascii) : Z := Z.of_N (N_of_ascii c).

(** [Buffer.from(string)]: UTF-8.  Code points below U+0080 take one byte,
    those from U+0080 to U+00FF two. *)
Definition utf8 (c : ascii) : Buffer :=
  let n := code c in
  if n <? 128 then [n] else [192 + n / 64; 128 + n mod 64].

Fixpoint Buffer_from (s : string) : Buffer :=
  match s with
  | EmptyString => []
  | String c rest => utf8 c ++ Buffer_from rest
  end.

Definition hex_digit (n : Z) : ascii :=
  nth (Z.to_nat n) (list_ascii_of_string "0123456789abcdef") "0"%char.

(** [digest('hex')]: two lower-case digits per byte. *)
Fixpoint hex (bytes : list Z) : string :=
  match bytes with
  | [] => EmptyString
  | b :: rest => String (hex_digit (b / 16)) (String (hex_digit (b mod 16)) (hex rest))
  end.

(* ===================================================================== *)
(** ** Expressions that can raise                                        *)
(* ===================================================================== *)

Inductive fault : Type :=
| TypeError   (* reading a property of undefined or null, a wrong argument
                 type, an object without a primitive value *)
| RangeError. (* [crypto.timingSafeEqual] on buffers of unequal byte length *)

Inductive result (A : Type) : Type :=
| Ok (a : A)
| Throw (e : fault).
Arguments Ok {A} a.
Arguments Throw {A} e.

Definition bind {A B : Type} (r : result A) (k : A -> result B) : result B :=
  match r with
  | Ok a => k a
  | Throw e => Throw e
  end.

Declare Scope js_scope.
Delimit Scope js_scope with js.
Notation "x <- e ;; k" := (bind e (fun x => k))
  (at level 61, e at next level, right associativity) : js_scope.

(** [crypto.timingSafeEqual(a, b)]: raises when the byte lengths differ,
    otherwise tells whether the contents are equal. *)
Fixpoint bytes_eqb (a b : Buffer) : bool :=
  match a, b with
  | [], [] => true
  | x :: a', y :: b' => (x =? y) && bytes_eqb a' b'
  | _, _ => false
  end.

Definition timingSafeEqual (a b : Buffer) : result bool :=
  if Nat.eqb (List.length a) (List.length b) then Ok (bytes_eqb a b)
  else Throw RangeError.

(* ===================================================================== *)
(** ** Values of a parsed JSON body                                      *)
(* ===================================================================== *)

(** What [JSON.parse] builds, plus [undefined] (the value of a missing
    property).  A number is an integer [z] of magnitude below 2^53 (the
    number literals of a GitHub payload: ids, counts), which JavaScript
    prints in plain decimal; fractions and exponents are outside the model.
    An object lists its own properties in insertion order; a key is looked
    up at its first occurrence. *)
#[warnings="-register-all"]
Inductive value : Type :=
| JUndefined
| JNull
| JBool (b : bool)
| JNum (z : Z)
| JStr (s : string)
| JArr (elems : list value)
| JObj (fields : list (string * value)).

Definition nullish (v : value) : bool :=
  match v with
  | JUndefined | JNull => true
  | _ => false
  end.

(** ToBoolean. *)
Definition truthy (v : value) : bool :=
  match v with
  | JUndefined | JNull => false
  | JBool b => b
  | JNum z => negb (z =? 0)
  | JStr s => negb (s =? "")%string
  | JArr _ | JObj _ => true
  end.

Fixpoint lookup (k : string) (fields : list (string * value)) : option value :=
  match fields with
  | [] => None
  | (k', v) :: rest => if (k' =? k)%string then Some v else lookup k rest
  end.

Definition has_key (k : string) (fields : list (string * value)) : bool :=
  match lookup k fields with
  | Some _ => true
  | None => false
  end.

(** [v.k] for a [v] that is neither undefined nor null, and a name [k] that
    no prototype defines (every name the handler reads: action, repository,
    full_name, sender, login, commits, length, ref, pusher, name, compare,
    number, pull_request, issue, title, html_url). *)
Definition prop (v : value) (k : string) : value :=
  match v with
  | JObj fields =>
      match lookup k fields with
      | Some x => x
      | None => JUndefined
      end
  | JArr elems =>
      if (k =? "length")%string then JNum (Z.of_nat (List.length elems))
      else JUndefined
  | JStr s =>
      if (k =? "length")%string then JNum (Z.of_nat (String.length s))
      else JUndefined
  | _ => JUndefined
  end.

(** [v.k] *)
Definition get (v : value) (k : string) : result value :=
  if nullish v then Throw TypeError else Ok (prop v k).

(** [v?.k] *)
Definition opt_get (v : value) (k : string) : value :=
  if nullish v then JUndefined else prop v k.

(** [a || b] *)
Definition or_else (a b : value) : value :=
  if truthy a then a else b.

Definition num_to_string (z : Z) : string :=
  NilZero.string_of_int (Z.to_int z).

(** [Array.prototype.join] with the default separator: undefined and null
    elements give the empty string, the others are converted by [elem]. *)
Section Join.
Variable elem : value -> result string.

Fixpoint join (l : list value) : result string :=
  match l with
  | [] => Ok ""
  | x :: rest =>
      bind (if nullish x then Ok "" else elem x) (fun a =>
      match rest with
      | [] => Ok a
      | _ :: _ => bind (join rest) (fun b => Ok (a ++ "," ++ b)%string)
      end)
  end.
End Join.

(** ToString, as a template literal applies it to a substitution.
    - An array answers with [join].
    - An object parsed from JSON holds no function.  With an own
      [toString] key neither that value nor [valueOf] (own: not callable;
      inherited: returns the object) yields a primitive, and the conversion
      raises.  Without one, [Object.prototype.toString] answers. *)
Fixpoint to_string (v : value) : result string :=
  match v with
  | JUndefined => Ok "undefined"
  | JNull => Ok "null"
  | JBool true => Ok "true"
  | JBool false => Ok "false"
  | JNum z => Ok (num_to_string z)
  | JStr s => Ok s
  | JArr elems => join to_string elems
  | JObj fields =>
      if has_key "toString" fields then Throw TypeError
      else Ok "[object Object]"
  end.

(** The values whose conversion meets no object with an own [toString]. *)
Fixpoint printable (v : value) : bool :=
  match v with
  | JArr elems => forallb printable elems
  | JObj fields => negb (has_key "toString" fields)
  | _ => true
  end.

(** Induction over values, with the elements of an array as premises. *)
Section ValueInduction.
Variable P : value -> Prop.
Hypothesis P_undefined : P JUndefined.
Hypothesis P_null : P JNull.
Hypothesis P_bool : forall b, P (JBool b).
Hypothesis P_num : forall z, P (JNum z).
Hypothesis P_str : forall s, P (JStr s).
Hypothesis P_arr : forall elems, Forall P elems -> P (JArr elems).
Hypothesis P_obj : forall fields, P (JObj fields).

Fixpoint value_elems_ind (v : value) : P v :=
  match v with
  | JUndefined => P_undefined
  | JNull => P_null
  | JBool b => P_bool b
  | JNum z => P_num z
  | JStr s => P_str s
  | JArr elems =>
      P_arr elems
        ((fix all (l : list value) : Forall P l :=
            match l with
            | [] => Forall_nil P
            | x :: rest => Forall_cons x (value_elems_ind x) (all rest)
            end) elems)
  | JObj fields => P_obj fields
  end.
End ValueInduction.

(* ===================================================================== *)
(** ** The message templates of the [switch (event)]                     *)
(* ===================================================================== *)

Local Open Scope js_scope.

Definition dquote : string := String (ascii_of_nat 34) EmptyString.

(** [case 'push'] *)
Definition push_message (payload : value) : result string :=
  commits <- get payload "commits" ;;
  c <- to_string (or_else (opt_get commits "length") (JNum 0)) ;;
  ref <- get payload "ref" ;;
  r <- to_string ref ;;
  pusher <- get payload "pusher" ;;
  n <- to_string (or_else (opt_get pusher "name") (JStr "unknown")) ;;
  compare <- get payload "compare" ;;
  u <- to_string compare ;;
  Ok ("**Push Event**: " ++ c ++ " commits pushed to " ++ r ++ " by " ++ n
        ++ ". Compare: " ++ u)%string.

(** [case 'pull_request'] *)
Definition pull_request_message (payload : value) : result string :=
  action <- get payload "action" ;;
  a <- to_string action ;;
  number <- get payload "number" ;;
  n <- to_string number ;;
  pr <- get payload "pull_request" ;;
  title <- get pr "title" ;;
  t <- to_string title ;;
  sender <- get payload "sender" ;;
  login <- get sender "login" ;;
  l <- to_string login ;;
  pr' <- get payload "pull_request" ;;
  url <- get pr' "html_url" ;;
  u <- to_string url ;;
  Ok ("**Pull Request " ++ a ++ "**: #" ++ n ++ " " ++ dquote ++ t ++ dquote
        ++ " by " ++ l ++ ". URL: " ++ u)%string.

(** [case 'issues'] *)
Definition issues_message (payload : value) : result string :=
  action <- get payload "action" ;;
  a <- to_string action ;;
  issue <- get payload "issue" ;;
  number <- get issue "number" ;;
  n <- to_string number ;;
  issue' <- get payload "issue" ;;
  title <- get issue' "title" ;;
  t <- to_string title ;;
  sender <- get payload "sender" ;;
  login <- get sender "login" ;;
  l <- to_string login ;;
  issue'' <- get payload "issue" ;;
  url <- get issue'' "html_url" ;;
  u <- to_string url ;;
  Ok ("**Issue " ++ a ++ "**: #" ++ n ++ " " ++ dquote ++ t ++ dquote
        ++ " by " ++ l ++ ". URL: " ++ u)%string.

(** The substitutions of the push template, and its text. *)
(* [payload.commits?.length || 0] and [payload.pusher?.name || 'unknown'] *)
Definition commit_count (payload : value) : value :=
  or_else (opt_get (prop payload "commits") "length") (JNum 0).

Definition pusher_name (payload : value) : value :=
  or_else (opt_get (prop payload "pusher") "name") (JStr "unknown").

Definition push_text (c r n u : string) : string :=
  ("**Push Event**: " ++ c ++ " commits pushed to " ++ r ++ " by " ++ n
     ++ ". Compare: " ++ u)%string.

(** The push substitutions that convert to a string without fault. *)
Definition printable_push (payload : value) : bool :=
  printable (commit_count payload) && printable (prop payload "ref")
  && printable (pusher_name payload) && printable (prop payload "compare").

(** The case labels.  The tag comes from the [x-github-event] header alone
    ([===] against each label); an absent header falls to [default]. *)
Inductive kind : Type := Push | PullRequest | Issues.

Definition classify (event : option string) : option kind :=
  match event with
  | None => None
  | Some e =>
      if (e =? "push")%string then Some Push
      else if (e =? "pull_request")%string then Some PullRequest
      else if (e =? "issues")%string then Some Issues
      else None
  end.

Definition message_of (k : kind) (payload : value) : result string :=
  match k with
  | Push => push_message payload
  | PullRequest => pull_request_message payload
  | Issues => issues_message payload
  end.

(** The formatter: the message of a supported event, [None] for [default]. *)
Definition format (event : option string) (payload : value)
  : result (option string) :=
  match classify event with
  | None => Ok None
  | Some k => message <- message_of k payload ;; Ok (Some message)
  end.

(* ===================================================================== *)
(** ** The signature gate (lines 95-112)                                 *)
(* ===================================================================== *)

(** [process.env]: a variable is a string or undefined. *)
Record Env : Type := mkEnv
  { GITHUB_SECRET : option string;
    ROOM_ID : option string }.

(** What the handler reads of a request.  [rawBody] is set by the
    body-parser [verify] hook and stays undefined when the parser skips the
    request; [body] is the parsed payload. *)
Record Request : Type := mkRequest
  { x_github_event : option string;
    x_hub_signature_256 : option string;
    rawBody : option Buffer;
    body : value }.

(** [`sha256=${hmac.digest('hex')}`]; [createHmac] and [update] raise on an
    undefined argument. *)
Definition expectedSig (secret : option string) (raw : option Buffer)
  : result string :=
  match secret with
  | None => Throw TypeError
  | Some key =>
      match raw with
      | None => Throw TypeError
      | Some data =>
          Ok ("sha256=" ++ hex (Hmac.sha256 (Buffer_from key) data))%string
      end
  end.

Inductive verdict : Type :=
| Missing   (* [!sigHeader]: undefined or the empty string *)
| Invalid   (* [timingSafeEqual] answered false *)
| Valid.

Definition verify (raw : option Buffer) (sigHeader : option string)
           (secret : option string) : result verdict :=
  match sigHeader with
  | None => Ok Missing
  | Some sig =>
      if (sig =? "")%string then Ok Missing
      else
        expected <- expectedSig secret raw ;;
        same <- timingSafeEqual (Buffer_from sig) (Buffer_from expected) ;;
        Ok (if same then Valid else Invalid)
  end.

(* ===================================================================== *)
(** ** The handler of [POST /github]                                     *)
(* ===================================================================== *)

(** The console lines, one constructor per call site. *)
Inductive console : Type :=
| IncomingWebhookRequest
| RejectedMissingSignature
| RejectedInvalidSignature
| SignatureValidated
| ProcessingEvent
| PushDetails
| PullRequestDetails
| IssueDetails
| UnhandledEventType
| SendingMessage
| MessagePosted
| ErrorPosting
| ProcessingCompleted.

Inductive effect : Type :=
| Console (line : console)
| MessagesCreate (roomId : option string) (markdown : string).

(** [res.status(s).send(b)] *)
Inductive reply : Type := Reply (status : Z) (text : string).

(** A run of the handler: what it did, then the response it sent or the
    fault that escaped it (the promise of the async handler rejects and no
    response is written). *)
Definition M (A : Type) : Type := list effect * result A.

Definition ret {A : Type} (a : A) : M A := ([], Ok a).
Definition lift {A : Type} (r : result A) : M A := ([], r).
Definition say (line : console) : M unit := ([Console line], Ok tt).
Definition seq_M {A B : Type} (m : M A) (k : A -> M B) : M B :=
  match m with
  | (t, Throw e) => (t, Throw e)
  | (t, Ok a) => let (t', r) := k a in (t ++ t', r)
  end.

Declare Scope handler_scope.
Delimit Scope handler_scope with handler.
Notation "x <~ m ;; k" := (seq_M m (fun x => k))
  (at level 61, m at next level, right associativity) : handler_scope.
Notation "m ;;; k" := (seq_M m (fun _ => k))
  (at level 61, right associativity) : handler_scope.

(** The Webex SDK seen from the handler ([framework.webex], which the
    framework sets up when it is constructed): whether the promise of
    [webex.messages.create] resolves ([true]) or rejects with an Error. *)
Definition Webex : Type := option string -> string -> bool.

(** [try { await webex.messages.create(..) ; log } catch (error) { log }] *)
Definition post_message (webex : Webex) (roomId : option string)
           (message : string) : M unit :=
  ([MessagesCreate roomId message;
    Console (if webex roomId message then MessagePosted else ErrorPosting)],
   Ok tt).

(** The property reads of the "Processing GitHub event" line (122-124). *)
Definition processing_fields (payload : value) : result unit :=
  _ <- get payload "action" ;;
  repository <- get payload "repository" ;;
  sender <- get payload "sender" ;;
  let _ := opt_get repository "full_name" in
  let _ := opt_get sender "login" in
  Ok tt.

Definition details_of (k : kind) : console :=
  match k with
  | Push => PushDetails
  | PullRequest => PullRequestDetails
  | Issues => IssueDetails
  end.

Local Open Scope handler_scope.

Definition post_github (env : Env) (webex : Webex) (req : Request) : M reply :=
  let event := x_github_event req in
  say IncomingWebhookRequest ;;;
  v <~ lift (verify (rawBody req) (x_hub_signature_256 req)
                    (GITHUB_SECRET env)) ;;
  match v with
  | Missing =>
      say RejectedMissingSignature ;;;
      ret (Reply 401 "Signature missing")
  | Invalid =>
      say RejectedInvalidSignature ;;;
      ret (Reply 401 "Invalid signature")
  | Valid =>
      say SignatureValidated ;;;
      let payload := body req in
      lift (processing_fields payload) ;;;
      say ProcessingEvent ;;;
      match classify event with
      | Some k =>
          message <~ lift (message_of k payload) ;;
          say (details_of k) ;;;
          say SendingMessage ;;;
          post_message webex (ROOM_ID env) message ;;;
          say ProcessingCompleted ;;;
          ret (Reply 200 "Event processed")
      | None =>
          say UnhandledEventType ;;;
          ret (Reply 200 "Event received")
      end
  end.

(** Observations on a run. *)
Definition relay_calls (t : list effect) : nat :=
  List.length (filter (fun e => match e with MessagesCreate _ _ => true | _ => false end) t).

Definition run_trace {A} (m : M A) : list effect := fst m.
Definition run_result {A} (m : M A) : result A := snd m.

(* ===================================================================== *)
(** ** Sample deliveries                                                 *)
(* ===================================================================== *)

Module Sample.

Definition env : Env := mkEnv (Some "s3cret") (Some "room-1").
Definition raw : Buffer := Buffer_from "{}".
Definition rejecting : Webex := fun _ _ => false.
Definition accepting : Webex := fun _ _ => true.

(** The header GitHub computes for [raw] under the secret of [env]. *)
Definition good_sig : string :=
  "sha256=adbde1ce40c89c14215687d5d762a47df6dfaefcfad61e2e86718ffc8498571b".

(** As long as [good_sig], wrong in its last digit. *)
Definition forged_sig : string :=
  "sha256=adbde1ce40c89c14215687d5d762a47df6dfaefcfad61e2e86718ffc8498571c".

Definition short_sig : string := "sha256=00".

Definition signed (event : string) (payload : value) : Request :=
  mkRequest (Some event) (Some good_sig) (Some raw) payload.

Definition push_payload : value :=
  JObj [("commits", JArr [JObj [("id", JStr "c1")]; JObj [("id", JStr "c2")]]);
        ("ref", JStr "refs/heads/main");
        ("pusher", JObj [("name", JStr "alice")]);
        ("compare", JStr "u")].

Definition push_without_pusher : value :=
  JObj [("commits", JArr []); ("ref", JStr "refs/heads/x");
        ("compare", JStr "u")].

Definition push_with_empty_name : value :=
  JObj [("pusher", JObj [("name", JStr "")])].

Definition push_with_opaque_ref : value :=
  JObj [("ref", JObj [("toString", JNum 1)])].

Definition issue_opened : value :=
  JObj [("action", JStr "opened");
        ("issue", JObj [("number", JNum 12); ("title", JStr "Crash");
                        ("html_url", JStr "h")]);
        ("sender", JObj [("login", JStr "bob")])].

Definition issue_without_issue : value :=
  JObj [("action", JStr "opened"); ("sender", JObj [("login", JStr "bob")])].

Definition pull_request_without_object : value :=
  JObj [("action", JStr "opened"); ("number", JNum 7);
        ("sender", JObj [("login", JStr "bob")])].

End Sample.

(* ===================================================================== *)
(** ** The shape of the expected header                                  *)
(* ===================================================================== *)

(** A digit of [digest('hex')]. *)
Definition is_lower_hex (c : ascii) : bool :=
  existsb (Ascii.eqb c) (list_ascii_of_string "0123456789abcdef").

(* ===================================================================== *)
(** ** The pull request and issue templates, by their substitutions      *)
(* ===================================================================== *)

Definition pull_request_text (a n t l u : string) : string :=
  ("**Pull Request " ++ a ++ "**: #" ++ n ++ " " ++ dquote ++ t ++ dquote
     ++ " by " ++ l ++ ". URL: " ++ u)%string.

Definition issue_text (a n t l u : string) : string :=
  ("**Issue " ++ a ++ "**: #" ++ n ++ " " ++ dquote ++ t ++ dquote
     ++ " by " ++ l ++ ". URL: " ++ u)%string.

(** The payloads on which [case 'pull_request'] reads no property of
    undefined or null and converts its five substitutions without fault. *)
Definition pull_request_renders (payload : value) : bool :=
  negb (nullish payload)
  && printable (prop payload "action")
  && printable (prop payload "number")
  && negb (nullish (prop payload "pull_request"))
  && printable (prop (prop payload "pull_request") "title")
  && negb (nullish (prop payload "sender"))
  && printable (prop (prop payload "sender") "login")
  && printable (prop (prop payload "pull_request") "html_url").

(** The same for [case 'issues']. *)
Definition issue_renders (payload : value) : bool :=
  negb (nullish payload)
  && printable (prop payload "action")
  && negb (nullish (prop payload "issue"))
  && printable (prop (prop payload "issue") "number")
  && printable (prop (prop payload "issue") "title")
  && negb (nullish (prop payload "sender"))
  && printable (prop (prop payload "sender") "login")
  && printable (prop (prop payload "issue") "html_url").

(* ===================================================================== *)
(** ** The application around the handler (lines 7-39 and 206-217)       *)
(* ===================================================================== *)

Module App.

(** What the error middleware reads of the error it is handed (line 15). *)
Record failure : Type := mkFailure
  { is_SyntaxError : bool;   (* [error instanceof SyntaxError] *)
    status : value;          (* [error.status] *)
    has_body : bool }.       (* ['body' in error] *)

Definition json_parse_failure (error : failure) : bool :=
  is_SyntaxError error
  && match status error with JNum z => z =? 400 | _ => false end
  && has_body error.

(** [res.status(s).send(text)] or [res.status(s).json(payload)]. *)
Inductive response : Type :=
| Send (r : reply)
| Json (status : Z) (payload : value).

(** What a run of the application does: the effects of the webhook
    handler, and the console line of the error middleware. *)
Inductive event : Type :=
| FromHandler (e : effect)
| JsonParsingError.

(** An error middleware ends the request or calls [next()]. *)
Inductive step : Type :=
| Responded (r : response)
| Next.

(** Lines 14-26.  Note the bare [next()]: an error that is not a JSON
    parse failure is not passed on, and Express resumes with the routes as
    if the body parser had not failed. *)
Definition json_error_middleware (error : failure) : list event * step :=
  if json_parse_failure error
  then ([JsonParsingError],
        Responded (Json 400 (JObj [("error", JStr "Invalid JSON payload")])))
  else ([], Next).

(** Lines 29-39; [now] is [new Date().toISOString()]. *)
Definition health (now : string) : value :=
  JObj [("status", JStr "OK");
        ("message", JStr "Webex GitHub Bot is running");
        ("timestamp", JStr now);
        ("endpoints", JObj [("github_webhook", JStr "/github");
                            ("health", JStr "/")])].

(** What [bodyParser.json({ verify, limit })] (lines 8-11) did with the
    request before the rest of the stack sees it:
    - it skipped it (no body, or a content type other than JSON);
    - it captured the raw body through the [verify] hook and parsed it;
    - it captured the raw body and [JSON.parse] raised: the error handed on
      is that SyntaxError, with status 400 and the text as [body];
    - it failed before capturing anything (body over the limit,
      unsupported charset or encoding, length mismatch). *)
Inductive parsing : Type :=
| Skipped
| Parsed (raw : Buffer) (payload : value)
| Malformed (raw : Buffer)
| Refused (error : failure).

(** The route Express selects for the method and path. *)
Inductive route : Type :=
| Health      (* [app.get('/')] *)
| Github      (* [app.post('/github')] *)
| Unrouted.   (* none of this file: Express answers by itself *)

Record Incoming : Type := mkIncoming
  { target : route;
    github_event : option string;
    hub_signature : option string;
    parsed : parsing;
    unparsed_body : value }.   (* [req.body] when the parser set none *)

(** The routes, for a request whose [rawBody] and [body] are as given.
    [None] stands for a request no handler of this file answers. *)
Definition dispatch (env : Env) (webex : Webex) (now : string)
           (inc : Incoming) (raw : option Buffer) (payload : value)
  : list event * result (option response) :=
  match target inc with
  | Health => ([], Ok (Some (Json 200 (health now))))
  | Github =>
      let (t, r) := post_github env webex
                      (mkRequest (github_event inc) (hub_signature inc)
                                 raw payload) in
      (map FromHandler t,
       match r with
       | Ok answer => Ok (Some (Send answer))
       | Throw e => Throw e
       end)
  | Unrouted => ([], Ok None)
  end.

(** The stack in the order of its registration: body parser, error
    middleware, routes. *)
Definition app (env : Env) (webex : Webex) (now : string) (inc : Incoming)
  : list event * result (option response) :=
  let after_error error raw :=
    match json_error_middleware error with
    | (t, Responded r) => (t, Ok (Some r))
    | (t, Next) =>
        let (t', r) := dispatch env webex now inc raw (unparsed_body inc) in
        (t ++ t', r)
    end in
  match parsed inc with
  | Skipped => dispatch env webex now inc None (unparsed_body inc)
  | Parsed raw payload => dispatch env webex now inc (Some raw) payload
  | Malformed raw =>
      after_error (mkFailure true (JNum 400) true) (Some raw)
  | Refused error => after_error error None
  end.

(** [process.env] at startup (lines 206-217). *)
Record ProcessEnv : Type := mkProcessEnv
  { WEBEX_TOKEN : option string;
    PORT : option string;
    handler_env : Env }.

Definition env_value (v : option string) : value :=
  match v with
  | Some s => JStr s
  | None => JUndefined
  end.

(** [process.env.PORT || 3000] *)
Definition port (pe : ProcessEnv) : value :=
  or_else (env_value (PORT pe)) (JNum 3000).

(** The "Environment check" line: [true] for "configured". *)
Record EnvironmentCheck : Type := mkEnvironmentCheck
  { webexToken : bool;
    githubSecret : bool;
    roomId : bool;
    listening : value }.

Definition environment_check (pe : ProcessEnv) : EnvironmentCheck :=
  {| webexToken := truthy (env_value (WEBEX_TOKEN pe));
     githubSecret := truthy (env_value (GITHUB_SECRET (handler_env pe)));
     roomId := truthy (env_value (ROOM_ID (handler_env pe)));
     listening := port pe |}.

End App.

(* ===================================================================== *)
(** ** The compatibility loader ([loader.js])                             *)
(* ===================================================================== *)

(** The loader works on the global object through [delete],
    [Object.defineProperty] and an assignment.  The model below is the part
    of the language those need: objects as records of own properties with
    their attributes, and the ordinary [[DefineOwnProperty]] of ECMA-262
    (ValidateAndApplyPropertyDescriptor).  Every object is an ordinary one.
    A user getter or setter is a function the model does not run: it may
    answer or raise, and is taken to leave the heap as it is. *)
Module Loader.

Definition loc : Type := nat.

Inductive jsval : Type :=
| VUndefined
| VNull
| VBool (b : bool)
| VNum (z : Z)
| VStr (s : string)
| VObject (l : loc).

(** [===], and SameValue, on these values. *)
Definition same (a b : jsval) : bool :=
  match a, b with
  | VUndefined, VUndefined | VNull, VNull => true
  | VBool x, VBool y => Bool.eqb x y
  | VNum x, VNum y => x =? y
  | VStr x, VStr y => (x =? y)%string
  | VObject x, VObject y => Nat.eqb x y
  | _, _ => false
  end.

Definition same_fn (a b : option loc) : bool :=
  match a, b with
  | None, None => true
  | Some x, Some y => Nat.eqb x y
  | _, _ => false
  end.

Inductive property : Type :=
| Data (value : jsval) (writable enumerable configurable : bool)
| Accessor (get set : option loc) (enumerable configurable : bool).

Definition configurable_of (p : property) : bool :=
  match p with
  | Data _ _ _ c => c
  | Accessor _ _ _ c => c
  end.

Record object : Type := mkObject
  { props : list (string * property);
    extensible : bool }.

Definition heap : Type := loc -> object.

(** The global object. *)
Definition global : loc := 0%nat.

Fixpoint own (k : string) (l : list (string * property)) : option property :=
  match l with
  | [] => None
  | (k', p) :: rest => if (k' =? k)%string then Some p else own k rest
  end.

Fixpoint put (k : string) (p : property) (l : list (string * property))
  : list (string * property) :=
  match l with
  | [] => [(k, p)]
  | (k', p') :: rest =>
      if (k' =? k)%string then (k, p) :: rest else (k', p') :: put k p rest
  end.

Fixpoint drop (k : string) (l : list (string * property))
  : list (string * property) :=
  match l with
  | [] => []
  | (k', p') :: rest =>
      if (k' =? k)%string then drop k rest else (k', p') :: drop k rest
  end.

Definition update (h : heap) (l : loc) (o : object) : heap :=
  fun l' => if Nat.eqb l' l then o else h l'.

Definition with_props (o : object) (ps : list (string * property)) : object :=
  mkObject ps (extensible o).

(** The third argument of [Object.defineProperty]: anything but an object,
    or an object with some of the six fields among its own enumerable
    properties.  A [get] or [set] field holds undefined, a function, or
    something else. *)
Inductive fn_field : Type :=
| FnUndefined
| FnFunction (f : loc)
| FnOther.

Record attributes : Type := mkAttributes
  { a_value : option jsval;
    a_writable : option bool;
    a_get : option fn_field;
    a_set : option fn_field;
    a_enumerable : option bool;
    a_configurable : option bool }.

Inductive argument : Type :=
| NotAnObject
| Attributes (a : attributes).

(** A property descriptor. *)
Record descriptor : Type := mkDescriptor
  { d_value : option jsval;
    d_writable : option bool;
    d_get : option (option loc);
    d_set : option (option loc);
    d_enumerable : option bool;
    d_configurable : option bool }.

Definition present {A : Type} (o : option A) : bool :=
  match o with
  | Some _ => true
  | None => false
  end.

Definition or_default {A : Type} (o : option A) (d : A) : A :=
  match o with
  | Some a => a
  | None => d
  end.

Definition fn_of (f : fn_field) : result (option loc) :=
  match f with
  | FnUndefined => Ok None
  | FnFunction g => Ok (Some g)
  | FnOther => Throw TypeError
  end.

Definition fn_field_of (f : option fn_field) : result (option (option loc)) :=
  match f with
  | None => Ok None
  | Some x => (g <- fn_of x ;; Ok (Some g))%js
  end.

(** ToPropertyDescriptor. *)
Definition ToPropertyDescriptor (arg : argument) : result descriptor :=
  match arg with
  | NotAnObject => Throw TypeError
  | Attributes a =>
      (g <- fn_field_of (a_get a) ;;
       s <- fn_field_of (a_set a) ;;
       if (present g || present s)
          && (present (a_value a) || present (a_writable a))
       then Throw TypeError
       else Ok (mkDescriptor (a_value a) (a_writable a) g s
                             (a_enumerable a) (a_configurable a)))%js
  end.

Definition is_accessor_descriptor (d : descriptor) : bool :=
  present (d_get d) || present (d_set d).

Definition is_data_descriptor (d : descriptor) : bool :=
  present (d_value d) || present (d_writable d).

Definition agrees {A : Type} (eqb : A -> A -> bool) (field : option A) (a : A)
  : bool :=
  match field with
  | Some x => eqb x a
  | None => true
  end.

(** A new property from a descriptor, absent fields at their defaults. *)
Definition create (d : descriptor) : property :=
  if is_accessor_descriptor d
  then Accessor (or_default (d_get d) None) (or_default (d_set d) None)
                (or_default (d_enumerable d) false)
                (or_default (d_configurable d) false)
  else Data (or_default (d_value d) VUndefined) (or_default (d_writable d) false)
            (or_default (d_enumerable d) false)
            (or_default (d_configurable d) false).

(** Whether the descriptor may be applied to the current property. *)
Definition allowed (d : descriptor) (current : property) : bool :=
  match current with
  | Data v w e c =>
      c || (negb (or_default (d_configurable d) false)
            && agrees Bool.eqb (d_enumerable d) e
            && negb (is_accessor_descriptor d)
            && (w || (negb (or_default (d_writable d) false)
                      && agrees same (d_value d) v)))
  | Accessor g s e c =>
      c || (negb (or_default (d_configurable d) false)
            && agrees Bool.eqb (d_enumerable d) e
            && (is_accessor_descriptor d || negb (is_data_descriptor d))
            && agrees same_fn (d_get d) g
            && agrees same_fn (d_set d) s)
  end.

(** The current property once the descriptor is applied. *)
Definition applied (d : descriptor) (current : property) : property :=
  match current with
  | Data v w e c =>
      if is_accessor_descriptor d
      then Accessor (or_default (d_get d) None) (or_default (d_set d) None)
                    (or_default (d_enumerable d) e)
                    (or_default (d_configurable d) c)
      else Data (or_default (d_value d) v) (or_default (d_writable d) w)
                (or_default (d_enumerable d) e)
                (or_default (d_configurable d) c)
  | Accessor g s e c =>
      if is_data_descriptor d
      then Data (or_default (d_value d) VUndefined)
                (or_default (d_writable d) false)
                (or_default (d_enumerable d) e)
                (or_default (d_configurable d) c)
      else Accessor (or_default (d_get d) g) (or_default (d_set d) s)
                    (or_default (d_enumerable d) e)
                    (or_default (d_configurable d) c)
  end.

(** [[DefineOwnProperty]]; [None] when it is refused. *)
Definition define_own (o : object) (k : string) (d : descriptor)
  : option object :=
  match own k (props o) with
  | None =>
      if extensible o then Some (with_props o (put k (create d) (props o)))
      else None
  | Some current =>
      if allowed d current
      then Some (with_props o (put k (applied d current) (props o)))
      else None
  end.

(** The built-in [Object.defineProperty(obj, prop, descriptor)], for a
    string [prop]: the heap after the call, and the object returned or the
    TypeError raised. *)
Definition defineProperty (h : heap) (obj : jsval) (prop : string)
           (arg : argument) : heap * result jsval :=
  match obj with
  | VObject l =>
      match ToPropertyDescriptor arg with
      | Throw e => (h, Throw e)
      | Ok d =>
          match define_own (h l) prop d with
          | Some o => (update h l o, Ok obj)
          | None => (h, Throw TypeError)
          end
      end
  | _ => (h, Throw TypeError)
  end.

(** [delete o.k] in a script that is not in strict mode: a property that
    is not configurable stays, without a fault. *)
Definition delete (h : heap) (l : loc) (k : string) : heap :=
  match own k (props (h l)) with
  | Some p =>
      if configurable_of p
      then update h l (with_props (h l) (drop k (props (h l))))
      else h
  | None => h
  end.

(** What the accessor functions answer. *)
Record accessors : Type := mkAccessors
  { getter : loc -> result jsval;
    setter : loc -> jsval -> result unit }.

(** [o.k], for a name no prototype of [o] defines. *)
Definition read (acc : accessors) (h : heap) (l : loc) (k : string)
  : result jsval :=
  match own k (props (h l)) with
  | Some (Data v _ _ _) => Ok v
  | Some (Accessor (Some g) _ _ _) => getter acc g
  | Some (Accessor None _ _ _) => Ok VUndefined
  | None => Ok VUndefined
  end.

(** [o.k = v], not in strict mode, for a name no prototype of [o] defines:
    refused writes are dropped silently. *)
Definition assign (acc : accessors) (h : heap) (l : loc) (k : string)
           (v : jsval) : result heap :=
  match own k (props (h l)) with
  | Some (Data _ w e c) =>
      if w then Ok (update h l (with_props (h l) (put k (Data v w e c) (props (h l)))))
      else Ok h
  | Some (Accessor _ (Some s) _ _) => (_ <- setter acc s v ;; Ok h)%js
  | Some (Accessor _ None _ _) => Ok h
  | None =>
      if extensible (h l)
      then Ok (update h l (with_props (h l)
                             (put k (Data v true true true) (props (h l)))))
      else Ok h
  end.

(** The console lines of the loader. *)
Inductive line : Type :=
| SettingUp
| PolyfillApplied
| PolyfillWarning
| Bypassed
| LoadingMain.

(** Method 1 (lines 7-39); [navigator] is the object the literal of lines
    17-27 evaluates to. *)
Definition method1 (acc : accessors) (navigator : jsval) (h : heap)
  : heap * list line :=
  let h1 := delete h global "navigator" in
  match defineProperty h1 (VObject global) "navigator"
          (Attributes (mkAttributes (Some navigator) (Some true) None None
                                    (Some true) (Some true))) with
  | (h2, Ok _) =>
      match assign acc h2 global "commonjsGlobal" (VObject global) with
      | Ok h3 => (h3, [PolyfillApplied])
      | Throw _ => (h2, [PolyfillWarning])
      end
  | (h2, Throw _) => (h2, [PolyfillWarning])
  end.

(** [{ ...descriptor, configurable: true, writable: true }] *)
Definition spread (arg : argument) : attributes :=
  match arg with
  | NotAnObject => mkAttributes None (Some true) None None None (Some true)
  | Attributes a =>
      mkAttributes (a_value a) (Some true) (a_get a) (a_set a)
                   (a_enumerable a) (Some true)
  end.

(** A call of the replacement of [Object.defineProperty] (lines 43-59). *)
Record outcome : Type := mkOutcome
  { heap_after : heap;
    printed : list line;
    returned : result jsval }.

Definition patched (acc : accessors) (h : heap) (obj : jsval) (prop : string)
           (arg : argument) : outcome :=
  match (if same obj (VObject global) then Ok true
         else (cg <- read acc h global "commonjsGlobal" ;; Ok (same obj cg))%js)
  with
  | Throw e => mkOutcome h [] (Throw e)
  | Ok on_global =>
      if on_global && (prop =? "navigator")%string
      then
        match defineProperty h obj prop (Attributes (spread arg)) with
        | (h', Ok o) => mkOutcome h' [] (Ok o)
        | (_, Throw _) => mkOutcome h [Bypassed] (Ok obj)
        end
      else
        let (h', r) := defineProperty h obj prop arg in
        mkOutcome h' [] r
  end.

(** The loader up to [require('./app.js')]: Method 1, then the
    replacement is installed. *)
Definition loader (acc : accessors) (navigator : jsval) (h : heap)
  : heap * list line :=
  let (h', t) := method1 acc navigator h in
  (h', [SettingUp] ++ t ++ [LoadingMain]).

(** Calls of the replacement made by the code loaded afterwards. *)
Record call : Type := mkCall
  { c_obj : jsval;
    c_prop : string;
    c_arg : argument }.

Fixpoint run (acc : accessors) (h : heap) (calls : list call) : heap :=
  match calls with
  | [] => h
  | c :: rest =>
      run acc (heap_after (patched acc h (c_obj c) (c_prop c) (c_arg c))) rest
  end.

(** The navigator of the global object is a data property that is still
    writable and configurable. *)
Definition navigator_open (h : heap) : bool :=
  match own "navigator" (props (h global)) with
  | Some (Data _ true _ true) => true
  | _ => false
  end.

(** A heap with nothing on the global object and one with a navigator that
    cannot be reconfigured. *)
Definition bare : heap := fun _ => mkObject [] true.

Definition locked : heap :=
  update bare global
         (mkObject [("navigator", Accessor (Some 7%nat) None true false)] true).

Definition silent : accessors :=
  mkAccessors (fun _ => Ok VUndefined) (fun _ _ => Ok tt).

End Loader.

(* ===================================================================== *)
(** * Properties                                                         *)
(* ===================================================================== *)

Lemma Ok_inj {A : Type} (a b : A) : Ok a = Ok b -> a = b.
Proof. congruence. Qed.

(** ** The digest on published vectors *)

(** FIPS 180-4, the one-block message "abc". *)
Lemma sha256_abc :
  hex (Sha256.digest (Buffer_from "abc"))
  = "ba7816bf8f01cfea414140de5dae2223b00361a396177a9cb410ff61f20015ad"%string.
Proof. vm_compute. reflexivity. Qed.

(** RFC 4231, test case 2 (a short key) and test case 6 (a key longer than
    one block, which is hashed first). *)
Lemma hmac_sha256_rfc4231 :
  hex (Hmac.sha256 (Buffer_from "Jefe")
                   (Buffer_from "what do ya want for nothing?"))
  = "5bdcc146bf60754e6a042426089575c75a003f089d2739839dec58b964ec3843"%string /\
  hex (Hmac.sha256 (repeat 170 131)
         (Buffer_from "Test Using Larger Than Block-Size Key - Hash Key First"))
  = "60e431591ee0b67f0d8a26aacbf5b77f8e0bc6213728c5140546040f0ee37f54"%string.
Proof. split; vm_compute; reflexivity. Qed.

(** ** Buffers *)

Lemma bytes_eqb_spec (a b : Buffer) : bytes_eqb a b = true <-> a = b.
Proof.
  revert b; induction a as [|x a IH]; intros [|y b]; simpl;
    try (split; (reflexivity || discriminate)).
  rewrite andb_true_iff, Z.eqb_eq, IH.
  split; [intros [-> ->]; reflexivity | intros E; injection E; auto].
Qed.

Lemma timingSafeEqual_same (a : Buffer) : timingSafeEqual a a = Ok true.
Proof.
  unfold timingSafeEqual. rewrite Nat.eqb_refl.
  f_equal. apply bytes_eqb_spec. reflexivity.
Qed.

Lemma timingSafeEqual_differ (a b : Buffer) :
  List.length a = List.length b -> a <> b -> timingSafeEqual a b = Ok false.
Proof.
  intros L D. unfold timingSafeEqual. rewrite L, Nat.eqb_refl. f_equal.
  destruct (bytes_eqb a b) eqn:E; [|reflexivity].
  apply bytes_eqb_spec in E. contradiction.
Qed.

Lemma timingSafeEqual_unequal_length (a b : Buffer) :
  List.length a <> List.length b -> timingSafeEqual a b = Throw RangeError.
Proof.
  intros L. unfold timingSafeEqual.
  destruct (Nat.eqb_spec (List.length a) (List.length b)); [contradiction|reflexivity].
Qed.

Lemma code_range (c : ascii) : 0 <= code c < 256.
Proof.
  unfold code. pose proof (N_ascii_bounded c). lia.
Qed.

Lemma code_inj (c d : ascii) : code c = code d -> c = d.
Proof.
  unfold code. intros E. apply N2Z.inj in E.
  rewrite <- (ascii_N_embedding c), <- (ascii_N_embedding d), E. reflexivity.
Qed.

(** UTF-8 is prefix-free on single characters. *)
Lemma utf8_app_inj (c d : ascii) (k l : Buffer) :
  utf8 c ++ k = utf8 d ++ l -> c = d /\ k = l.
Proof.
  unfold utf8. pose proof (code_range c) as Rc. pose proof (code_range d) as Rd.
  pose proof (code_inj c d) as Hinj.
  revert Rc Rd Hinj. generalize (code c) (code d). intros m n Rm Rn Hinj.
  remember (192 + m / 64) as mh eqn:Emh. remember (128 + m mod 64) as ml eqn:Eml.
  remember (192 + n / 64) as nh eqn:Enh. remember (128 + n mod 64) as nl eqn:Enl.
  destruct (Z.ltb_spec m 128), (Z.ltb_spec n 128);
    cbn [app]; intros E; injection E; clear E; intros.
  - split; [apply Hinj|]; assumption.
  - exfalso. subst. Z.div_mod_to_equations. lia.
  - exfalso. subst. Z.div_mod_to_equations. lia.
  - split; [apply Hinj|assumption]. subst. Z.div_mod_to_equations. lia.
Qed.

Lemma Buffer_from_inj (s t : string) : Buffer_from s = Buffer_from t -> s = t.
Proof.
  revert t; induction s as [|c s IH]; intros [|d t]; simpl; intros E.
  - reflexivity.
  - exfalso. unfold utf8 in E. destruct (code d <? 128); discriminate.
  - exfalso. unfold utf8 in E. destruct (code c <? 128); discriminate.
  - apply utf8_app_inj in E as [-> E]. f_equal. apply IH, E.
Qed.

Lemma Buffer_from_app (s t : string) :
  Buffer_from (s ++ t)%string = Buffer_from s ++ Buffer_from t.
Proof.
  induction s as [|c s IH]; [reflexivity|].
  cbn [append Buffer_from]. rewrite IH, app_assoc. reflexivity.
Qed.

Lemma hex_digit_ascii (n : Z) : utf8 (hex_digit n) = [code (hex_digit n)].
Proof.
  unfold hex_digit. generalize (Z.to_nat n) as m. intros m.
  do 16 (destruct m as [|m]; [reflexivity|]).
  destruct m; reflexivity.
Qed.

Lemma Buffer_from_hex_length (bytes : list Z) :
  List.length (Buffer_from (hex bytes)) = (2 * List.length bytes)%nat.
Proof.
  induction bytes as [|b bytes IH]; [reflexivity|].
  cbn [hex Buffer_from]. rewrite !hex_digit_ascii.
  cbn [app List.length]. rewrite IH. lia.
Qed.

Lemma Sha256_digest_length (msg : list Z) :
  List.length (Sha256.digest msg) = 32%nat.
Proof.
  unfold Sha256.digest. generalize (Sha256.blocks (List.length (Sha256.pad msg)) Sha256.H0 (Sha256.pad msg)).
  intros s. reflexivity.
Qed.

(** The expected header value always takes 71 bytes: seven for the prefix
    and two per byte of the digest. *)
Lemma expectedSig_length (key : string) (data : Buffer) (s : string) :
  expectedSig (Some key) (Some data) = Ok s ->
  List.length (Buffer_from s) = 71%nat.
Proof.
  unfold expectedSig. intros E. apply Ok_inj in E. rewrite <- E.
  rewrite Buffer_from_app, length_app, Buffer_from_hex_length.
  unfold Hmac.sha256. rewrite Sha256_digest_length. reflexivity.
Qed.

(** ** The signature gate *)

(** C1.  For every body [B] and secret [K], the header value
    ["sha256=" + hex(HMAC-SHA256(K, B))] is what the handler expects, and
    [verify] on [B], that header and [K] answers [Valid]: the request is
    accepted as authentic. *)
Theorem verify_accepts_expected_signature (B : Buffer) (K : string) :
  let S := ("sha256=" ++ hex (Hmac.sha256 (Buffer_from K) B))%string in
  expectedSig (Some K) (Some B) = Ok S /\
  verify (Some B) (Some S) (Some K) = Ok Valid.
Proof.
  intros S. split; [reflexivity|].
  unfold verify. change (S =? "")%string with false. cbv iota.
  change (expectedSig (Some K) (Some B)) with (Ok S).
  cbn [bind]. rewrite timingSafeEqual_same. reflexivity.
Qed.

(** C2.  What the code does on a header whose byte length is not that of
    the expected value: for every body, secret and non-empty header value of
    a byte length other than 71, [verify] raises a RangeError (from
    [crypto.timingSafeEqual]) instead of answering [Invalid]. *)
Theorem verify_raises_on_length_mismatch (B : Buffer) (K S : string) :
  S <> ""%string ->
  List.length (Buffer_from S) <> 71%nat ->
  verify (Some B) (Some S) (Some K) = Throw RangeError.
Proof.
  intros NE L. unfold verify.
  destruct (String.eqb_spec S ""); [contradiction|].
  destruct (expectedSig (Some K) (Some B)) as [e|f] eqn:E; [|discriminate E].
  cbn [bind]. rewrite timingSafeEqual_unequal_length; [reflexivity|].
  rewrite (expectedSig_length K B e E). exact L.
Qed.

Lemma verify_raises_on_length_mismatch_witness :
  Sample.short_sig <> ""%string /\
  List.length (Buffer_from Sample.short_sig) <> 71%nat /\
  verify (Some Sample.raw) (Some Sample.short_sig) (Some "s3cret")
  = Throw RangeError.
Proof.
  split; [discriminate|]. split; [discriminate|].
  apply (verify_raises_on_length_mismatch Sample.raw "s3cret" Sample.short_sig);
    discriminate.
Defined.

(** ** String conversion *)

Lemma join_Ok_iff (elem : value -> result string) (l : list value) :
  (exists s, join elem l = Ok s) <->
  Forall (fun x => nullish x = true \/ exists s, elem x = Ok s) l.
Proof.
  induction l as [|x rest IH].
  - split; [constructor | exists ""%string; reflexivity].
  - cbn [join]. split.
    + intros [s E]. destruct (nullish x) eqn:N.
      * constructor; [left; exact N|]. apply IH.
        cbn [bind] in E. destruct rest; [exists ""%string; reflexivity|].
        destruct (join elem (v :: rest)) as [b|f]; [exists b; reflexivity|discriminate E].
      * destruct (elem x) as [a|f] eqn:Ex; [|discriminate E].
        constructor; [right; exists a; exact Ex|]. apply IH.
        cbn [bind] in E. destruct rest; [exists ""%string; reflexivity|].
        destruct (join elem (v :: rest)) as [b|f]; [exists b; reflexivity|discriminate E].
    + intros F. inversion F as [|? ? Hx Hrest]; subst.
      apply IH in Hrest as [b Eb].
      assert (exists a, (if nullish x then Ok ""%string else elem x) = Ok a) as [a Ea].
      { destruct (nullish x) eqn:N; [exists ""%string; reflexivity|].
        destruct Hx as [Hx|Hx]; [discriminate Hx|exact Hx]. }
      rewrite Ea. cbn [bind]. destruct rest; [exists a; reflexivity|].
      rewrite Eb. cbn [bind]. eexists; reflexivity.
Qed.

Lemma join_fault (elem : value -> result string) (l : list value) (e : fault) :
  Forall (fun x => forall f, elem x = Throw f -> f = TypeError) l ->
  join elem l = Throw e -> e = TypeError.
Proof.
  induction l as [|x rest IH]; intros F E; [discriminate E|].
  inversion F as [|? ? Hx Hrest]; subst. cbn [join] in E.
  destruct (nullish x).
  - cbn [bind] in E. destruct rest; [discriminate E|].
    destruct (join elem (v :: rest)) as [b|f] eqn:J; [discriminate E|].
    cbn [bind] in E. injection E as <-. apply IH; [assumption|reflexivity].
  - destruct (elem x) as [a|f] eqn:Ex.
    + cbn [bind] in E. destruct rest; [discriminate E|].
      destruct (join elem (v :: rest)) as [b|f] eqn:J; [discriminate E|].
      cbn [bind] in E. injection E as <-. apply IH; [assumption|reflexivity].
    + cbn [bind] in E. injection E as <-. apply Hx. reflexivity.
Qed.

(** String conversion raises nothing but a TypeError. *)
Lemma to_string_fault (v : value) (e : fault) :
  to_string v = Throw e -> e = TypeError.
Proof.
  revert e. induction v using value_elems_ind; intros e E;
    try discriminate E.
  - destruct b; discriminate E.
  - cbn [to_string] in E. eapply join_fault; [|exact E].
    eapply Forall_impl; [|exact H]. intros x Hx f. apply Hx.
  - cbn [to_string] in E. destruct (has_key "toString" fields); congruence.
Qed.

(** It succeeds exactly on the printable values. *)
Lemma to_string_Ok_iff (v : value) :
  (exists s, to_string v = Ok s) <-> printable v = true.
Proof.
  induction v using value_elems_ind;
    try (split; [reflexivity | intros _; eexists; reflexivity]).
  - split; [reflexivity|]. intros _. destruct b; eexists; reflexivity.
  - cbn [to_string printable]. rewrite join_Ok_iff, forallb_forall, Forall_forall.
    rewrite Forall_forall in H.
    split; intros F x Hx.
    + destruct (F x Hx) as [N|S]; [destruct x; try discriminate N; reflexivity|].
      apply (H x Hx), S.
    + right. apply (H x Hx), F, Hx.
  - cbn [to_string printable]. destruct (has_key "toString" fields).
    + split; [intros [s E]; discriminate E | discriminate].
    + split; [reflexivity | intros _; eexists; reflexivity].
Qed.

Lemma to_string_printable (v : value) :
  printable v = true -> exists s, to_string v = Ok s.
Proof. apply to_string_Ok_iff. Qed.

Lemma to_string_unprintable (v : value) :
  printable v = false -> to_string v = Throw TypeError.
Proof.
  intros U. destruct (to_string v) as [s|e] eqn:E.
  - assert (printable v = true) by (apply to_string_Ok_iff; exists s; exact E).
    congruence.
  - f_equal. eapply to_string_fault, E.
Qed.

(** ** The push template *)

Lemma push_message_unfold (payload : value) :
  nullish payload = false ->
  push_message payload =
  (c <- to_string (commit_count payload) ;;
   r <- to_string (prop payload "ref") ;;
   n <- to_string (pusher_name payload) ;;
   u <- to_string (prop payload "compare") ;;
   Ok (push_text c r n u))%js.
Proof.
  intros N. unfold push_message, get. rewrite N. reflexivity.
Qed.

Lemma falsy_name_is_unknown (payload : value) :
  truthy (opt_get (prop payload "pusher") "name") = false ->
  pusher_name payload = JStr "unknown".
Proof.
  unfold pusher_name, or_else. intros ->. reflexivity.
Qed.

Lemma count_to_string (n : Z) :
  to_string (or_else (JNum n) (JNum 0)) = Ok (num_to_string n).
Proof.
  unfold or_else. cbn [truthy]. destruct (Z.eqb_spec n 0) as [->|]; reflexivity.
Qed.

Lemma name_to_string (s : string) :
  to_string (or_else (JStr s) (JStr "unknown"))
  = Ok (if (s =? "")%string then "unknown"%string else s).
Proof.
  unfold or_else. cbn [truthy]. destruct (s =? "")%string; reflexivity.
Qed.

(** C4 (amended).  For a push event whose payload has a commits array, a
    ref, a pusher name and a compare URL, the formatter produces
    "**Push Event**: {len(commits)} commits pushed to {ref} by {pusher.name
    or 'unknown'}. Compare: {compare}", with the markdown emphasis marks
    around "Push Event". *)
Theorem push_message_template
        (fields pusher : list (string * value)) (commits : list value)
        (ref name compare : string) :
  lookup "commits" fields = Some (JArr commits) ->
  lookup "ref" fields = Some (JStr ref) ->
  lookup "pusher" fields = Some (JObj pusher) ->
  lookup "name" pusher = Some (JStr name) ->
  lookup "compare" fields = Some (JStr compare) ->
  format (Some "push") (JObj fields)
  = Ok (Some (push_text (num_to_string (Z.of_nat (List.length commits))) ref
                        (if (name =? "")%string then "unknown"%string else name)
                        compare)).
Proof.
  intros Hc Hr Hp Hn Hu.
  unfold format. cbn [classify String.eqb Ascii.eqb Bool.eqb message_of].
  rewrite push_message_unfold by reflexivity.
  unfold commit_count, pusher_name. cbn [prop]. rewrite Hc, Hr, Hp, Hu.
  cbn [opt_get nullish prop String.eqb Ascii.eqb Bool.eqb]. rewrite Hn.
  rewrite count_to_string, name_to_string. reflexivity.
Qed.

Lemma push_message_template_witness :
  format (Some "push") Sample.push_payload
  = Ok (Some "**Push Event**: 2 commits pushed to refs/heads/main by alice. Compare: u"%string).
Proof.
  unfold Sample.push_payload.
  apply (push_message_template
           _ [("name", JStr "alice")]
           [JObj [("id", JStr "c1")]; JObj [("id", JStr "c2")]]
           "refs/heads/main" "alice" "u"); reflexivity.
Defined.

(** C4, as stated, fails: on the payload of the claim the message is not
    the plain "Push Event: ..." string. *)
Lemma push_message_is_not_plain :
  format (Some "push") Sample.push_payload
  <> Ok (Some "Push Event: 2 commits pushed to refs/heads/main by alice. Compare: u"%string).
Proof.
  vm_compute. discriminate.
Qed.

(** C9.  For every push payload in which the pusher name is absent, the
    pusher substitution evaluates without fault to the literal "unknown",
    and that is what the message carries between " by " and ". Compare: ". *)
Theorem absent_pusher_name_renders_unknown (payload : value) :
  nullish payload = false ->
  opt_get (prop payload "pusher") "name" = JUndefined ->
  to_string (pusher_name payload) = Ok "unknown"%string /\
  forall c r u : string,
    to_string (commit_count payload) = Ok c ->
    to_string (prop payload "ref") = Ok r ->
    to_string (prop payload "compare") = Ok u ->
    format (Some "push") payload = Ok (Some (push_text c r "unknown" u)).
Proof.
  intros N A.
  assert (pusher_name payload = JStr "unknown") as P.
  { apply falsy_name_is_unknown. rewrite A. reflexivity. }
  split; [rewrite P; reflexivity|].
  intros c r u Hc Hr Hu.
  unfold format. cbn [classify String.eqb Ascii.eqb Bool.eqb message_of].
  rewrite push_message_unfold by exact N.
  rewrite Hc, Hr, P, Hu. reflexivity.
Qed.

Lemma absent_pusher_name_renders_unknown_witness :
  nullish Sample.push_without_pusher = false /\
  opt_get (prop Sample.push_without_pusher "pusher") "name" = JUndefined /\
  format (Some "push") Sample.push_without_pusher
  = Ok (Some "**Push Event**: 0 commits pushed to refs/heads/x by unknown. Compare: u"%string).
Proof.
  split; [reflexivity|]. split; [reflexivity|].
  exact (proj2 (absent_pusher_name_renders_unknown
                  Sample.push_without_pusher eq_refl eq_refl)
               "0"%string "refs/heads/x"%string "u"%string
               eq_refl eq_refl eq_refl).
Defined.

(** C10, as stated, fails: a JSON payload whose ref is an object with an own
    "toString" key makes the push template raise. *)
Lemma push_message_raises_on_opaque_ref :
  format (Some "push") Sample.push_with_opaque_ref = Throw TypeError.
Proof. reflexivity. Qed.

(** C10 (amended).  For every payload the body parser delivers, formatting
    a push event returns a message when the conversion to string of the four
    substitutions meets no object with an own "toString" key, and raises a
    TypeError otherwise; an absent commits array renders the count 0, and an
    absent pusher object or an absent or empty pusher name renders as
    "unknown". *)
Theorem push_message_total_on_printable (payload : value) :
  nullish payload = false ->
  (printable_push payload = true ->
   exists c r n u : string,
     to_string (commit_count payload) = Ok c /\
     to_string (prop payload "ref") = Ok r /\
     to_string (pusher_name payload) = Ok n /\
     to_string (prop payload "compare") = Ok u /\
     format (Some "push") payload = Ok (Some (push_text c r n u))) /\
  (printable_push payload = false ->
   format (Some "push") payload = Throw TypeError) /\
  (nullish (prop payload "commits") = true ->
   to_string (commit_count payload) = Ok "0"%string) /\
  (nullish (prop payload "pusher") = true \/
   truthy (opt_get (prop payload "pusher") "name") = false ->
   to_string (pusher_name payload) = Ok "unknown"%string).
Proof.
  intros N.
  assert (format (Some "push") payload
          = bind (push_message payload) (fun m => Ok (Some m))) as F by reflexivity.
  rewrite F, push_message_unfold by exact N. clear F.
  unfold printable_push.
  repeat split.
  - intros P. rewrite !andb_true_iff in P. destruct P as [[[Pc Pr] Pn] Pu].
    apply to_string_printable in Pc as [c Ec], Pr as [r Er], Pn as [n En],
        Pu as [u Eu].
    exists c, r, n, u. rewrite Ec, Er, En, Eu. repeat split; reflexivity.
  - intros P.
    destruct (printable (commit_count payload)) eqn:Pc;
      [apply to_string_printable in Pc as [c ->]
      |rewrite (to_string_unprintable _ Pc); reflexivity].
    destruct (printable (prop payload "ref")) eqn:Pr;
      [apply to_string_printable in Pr as [r ->]
      |rewrite (to_string_unprintable _ Pr); reflexivity].
    destruct (printable (pusher_name payload)) eqn:Pn;
      [apply to_string_printable in Pn as [n ->]
      |rewrite (to_string_unprintable _ Pn); reflexivity].
    destruct (printable (prop payload "compare")) eqn:Pu;
      [discriminate P|rewrite (to_string_unprintable _ Pu); reflexivity].
  - intros C. unfold commit_count, opt_get. rewrite C. reflexivity.
  - intros [P|P]; rewrite falsy_name_is_unknown; try reflexivity; try exact P.
    unfold opt_get. rewrite P. reflexivity.
Qed.

Lemma push_message_total_on_printable_witness :
  nullish Sample.push_with_empty_name = false /\
  printable_push Sample.push_with_empty_name = true /\
  format (Some "push") Sample.push_with_empty_name
  = Ok (Some "**Push Event**: 0 commits pushed to undefined by unknown. Compare: undefined"%string).
Proof.
  split; [reflexivity|]. split; [reflexivity|].
  destruct (proj1 (push_message_total_on_printable
                     Sample.push_with_empty_name eq_refl) eq_refl)
    as (c & r & n & u & Ec & Er & En & Eu & F).
  rewrite F.
  injection Ec as <-. injection Er as <-. injection En as <-. injection Eu as <-.
  reflexivity.
Defined.

(** ** The templates that read nested objects *)

Lemma get_present (v : value) (k : string) :
  nullish v = false -> get v k = Ok (prop v k).
Proof. unfold get. intros ->. reflexivity. Qed.

Lemma get_absent (v : value) (k : string) :
  nullish v = true -> get v k = Throw TypeError.
Proof. unfold get. intros ->. reflexivity. Qed.

Lemma nullish_prop (v : value) (k : string) :
  nullish v = true -> prop v k = JUndefined.
Proof. destruct v; try discriminate; reflexivity. Qed.

(** One substitution of a template: either it raises a TypeError, and so
    does the template, or the proof goes on with its text. *)
Ltac substitution :=
  lazymatch goal with
  | |- bind (to_string ?v) _ = Throw TypeError =>
      let E := fresh "E" in
      destruct (to_string v) eqn:E; cbn [bind];
      [|f_equal; eapply to_string_fault; exact E]
  end.

Lemma pull_request_message_incomplete (payload : value) :
  nullish (prop payload "pull_request") = true \/
  nullish (prop payload "sender") = true ->
  pull_request_message payload = Throw TypeError.
Proof.
  intros L. unfold pull_request_message.
  destruct (nullish payload) eqn:N.
  { rewrite get_absent by exact N. reflexivity. }
  rewrite !(get_present payload) by exact N. cbn [bind].
  do 2 substitution.
  destruct (nullish (prop payload "pull_request")) eqn:P.
  { rewrite get_absent by exact P. reflexivity. }
  rewrite !(get_present (prop payload "pull_request")) by exact P. cbn [bind].
  substitution.
  destruct L as [L|L]; [discriminate L|].
  rewrite get_absent by exact L. reflexivity.
Qed.

Lemma issues_message_incomplete (payload : value) :
  nullish (prop payload "issue") = true \/
  nullish (prop payload "sender") = true ->
  issues_message payload = Throw TypeError.
Proof.
  intros L. unfold issues_message.
  destruct (nullish payload) eqn:N.
  { rewrite get_absent by exact N. reflexivity. }
  rewrite !(get_present payload) by exact N. cbn [bind].
  substitution.
  destruct (nullish (prop payload "issue")) eqn:P.
  { rewrite get_absent by exact P. reflexivity. }
  rewrite !(get_present (prop payload "issue")) by exact P. cbn [bind].
  do 2 substitution.
  destruct L as [L|L]; [discriminate L|].
  rewrite get_absent by exact L. reflexivity.
Qed.

(** ** The handler *)

Lemma processing_fields_present (payload : value) :
  nullish payload = false -> processing_fields payload = Ok tt.
Proof.
  intros N. unfold processing_fields.
  rewrite !(get_present payload) by exact N. reflexivity.
Qed.

Lemma processing_fields_absent (payload : value) :
  nullish payload = true -> processing_fields payload = Throw TypeError.
Proof.
  intros N. unfold processing_fields. rewrite get_absent by exact N. reflexivity.
Qed.

Lemma message_of_needs_payload (k : kind) (payload : value) (message : string) :
  message_of k payload = Ok message -> nullish payload = false.
Proof.
  destruct (nullish payload) eqn:N; [|reflexivity].
  destruct k; cbn [message_of];
    unfold push_message, pull_request_message, issues_message;
    rewrite get_absent by exact N; discriminate.
Qed.

Lemma classify_default (event : option string) :
  event <> Some "push"%string ->
  event <> Some "pull_request"%string ->
  event <> Some "issues"%string ->
  classify event = None.
Proof.
  intros H1 H2 H3. destruct event as [e|]; [|reflexivity]. unfold classify.
  destruct (String.eqb_spec e "push"); [subst; contradiction|].
  destruct (String.eqb_spec e "pull_request"); [subst; contradiction|].
  destruct (String.eqb_spec e "issues"); [subst; contradiction|].
  reflexivity.
Qed.

(** The run of an authenticated request, from the "Processing" line on. *)
Lemma post_github_valid (env : Env) (webex : Webex) (req : Request) :
  verify (rawBody req) (x_hub_signature_256 req) (GITHUB_SECRET env) = Ok Valid ->
  nullish (body req) = false ->
  post_github env webex req =
  match classify (x_github_event req) with
  | Some k =>
      match message_of k (body req) with
      | Ok message =>
          ([Console IncomingWebhookRequest; Console SignatureValidated;
            Console ProcessingEvent; Console (details_of k);
            Console SendingMessage;
            MessagesCreate (ROOM_ID env) message;
            Console (if webex (ROOM_ID env) message then MessagePosted
                     else ErrorPosting);
            Console ProcessingCompleted],
           Ok (Reply 200 "Event processed"))
      | Throw e =>
          ([Console IncomingWebhookRequest; Console SignatureValidated;
            Console ProcessingEvent], Throw e)
      end
  | None =>
      ([Console IncomingWebhookRequest; Console SignatureValidated;
        Console ProcessingEvent; Console UnhandledEventType],
       Ok (Reply 200 "Event received"))
  end.
Proof.
  intros V N. unfold post_github. rewrite V.
  rewrite (processing_fields_present _ N).
  destruct (classify (x_github_event req)) as [k|]; [|reflexivity].
  destruct (message_of k (body req)); reflexivity.
Qed.

(** C5.  For every request that passes the signature gate, carries a parsed
    payload and an event type other than push, pull_request and issues, the
    handler answers 200 "Event received" and never calls
    [webex.messages.create]. *)
Theorem unsupported_event_is_acknowledged
        (env : Env) (webex : Webex) (req : Request) :
  verify (rawBody req) (x_hub_signature_256 req) (GITHUB_SECRET env) = Ok Valid ->
  nullish (body req) = false ->
  x_github_event req <> Some "push"%string ->
  x_github_event req <> Some "pull_request"%string ->
  x_github_event req <> Some "issues"%string ->
  format (x_github_event req) (body req) = Ok None /\
  post_github env webex req
  = ([Console IncomingWebhookRequest; Console SignatureValidated;
      Console ProcessingEvent; Console UnhandledEventType],
     Ok (Reply 200 "Event received")) /\
  relay_calls (run_trace (post_github env webex req)) = 0%nat.
Proof.
  intros V N H1 H2 H3.
  pose proof (classify_default _ H1 H2 H3) as C.
  rewrite (post_github_valid env webex req V N). unfold format. rewrite C.
  repeat split.
Qed.

Lemma unsupported_event_is_acknowledged_witness :
  post_github Sample.env Sample.accepting
              (Sample.signed "deployment" (JObj [("deployment", JObj [])]))
  = ([Console IncomingWebhookRequest; Console SignatureValidated;
      Console ProcessingEvent; Console UnhandledEventType],
     Ok (Reply 200 "Event received")).
Proof.
  refine (proj1 (proj2 (unsupported_event_is_acknowledged
                  Sample.env Sample.accepting
                  (Sample.signed "deployment" (JObj [("deployment", JObj [])]))
                  _ _ _ _ _))).
  - vm_compute. reflexivity.
  - reflexivity.
  - discriminate.
  - discriminate.
  - discriminate.
Defined.

(** C6 (amended).  For every request that passes the signature gate and
    carries a supported event type whose template renders the payload to a
    message, the handler calls [webex.messages.create] exactly once, with the
    configured room and that message, and answers 200 "Event processed"
    whether the call resolves or rejects; a rejection only changes the
    console line that follows the call. *)
Theorem formatted_event_is_relayed_once
        (env : Env) (webex : Webex) (req : Request) (k : kind) (message : string) :
  verify (rawBody req) (x_hub_signature_256 req) (GITHUB_SECRET env) = Ok Valid ->
  classify (x_github_event req) = Some k ->
  message_of k (body req) = Ok message ->
  post_github env webex req
  = ([Console IncomingWebhookRequest; Console SignatureValidated;
      Console ProcessingEvent; Console (details_of k); Console SendingMessage;
      MessagesCreate (ROOM_ID env) message;
      Console (if webex (ROOM_ID env) message then MessagePosted
               else ErrorPosting);
      Console ProcessingCompleted],
     Ok (Reply 200 "Event processed")) /\
  relay_calls (run_trace (post_github env webex req)) = 1%nat.
Proof.
  intros V C F.
  rewrite (post_github_valid env webex req V (message_of_needs_payload _ _ _ F)).
  rewrite C, F. split; reflexivity.
Qed.

Lemma formatted_event_is_relayed_once_witness :
  post_github Sample.env Sample.rejecting
              (Sample.signed "issues" Sample.issue_opened)
  = ([Console IncomingWebhookRequest; Console SignatureValidated;
      Console ProcessingEvent; Console IssueDetails; Console SendingMessage;
      MessagesCreate (Some "room-1"%string)
        (String.concat dquote
           ["**Issue opened**: #12 "; "Crash"; " by bob. URL: h"]%string);
      Console ErrorPosting; Console ProcessingCompleted],
     Ok (Reply 200 "Event processed")).
Proof.
  refine (proj1 (formatted_event_is_relayed_once
                   Sample.env Sample.rejecting
                   (Sample.signed "issues" Sample.issue_opened) Issues _ _ _ _)).
  - vm_compute. reflexivity.
  - reflexivity.
  - reflexivity.
Defined.

(** C6, as stated, fails: an issues event with a valid signature and action
    "opened" whose payload has no issue object gets no response at all and
    no relay call. *)
Lemma incomplete_issue_is_not_processed :
  let req := Sample.signed "issues" Sample.issue_without_issue in
  verify (rawBody req) (x_hub_signature_256 req) (GITHUB_SECRET Sample.env)
  = Ok Valid /\
  classify (x_github_event req) = Some Issues /\
  run_result (post_github Sample.env Sample.accepting req)
  <> Ok (Reply 200 "Event processed") /\
  relay_calls (run_trace (post_github Sample.env Sample.accepting req)) <> 1%nat.
Proof.
  vm_compute. repeat split; discriminate.
Qed.

(** C7 (amended).  An absent or empty x-hub-signature-256 header yields
    401 "Signature missing"; a non-empty header value with the byte length of
    the expected value (71) that differs from it yields 401 "Invalid
    signature"; the two bodies differ. *)
Theorem signature_rejections (env : Env) (webex : Webex) (req : Request) :
  (x_hub_signature_256 req = None \/ x_hub_signature_256 req = Some ""%string ->
   post_github env webex req
   = ([Console IncomingWebhookRequest; Console RejectedMissingSignature],
      Ok (Reply 401 "Signature missing"))) /\
  (forall (K : string) (B : Buffer) (S : string),
      GITHUB_SECRET env = Some K ->
      rawBody req = Some B ->
      x_hub_signature_256 req = Some S ->
      S <> ""%string ->
      List.length (Buffer_from S) = 71%nat ->
      S <> ("sha256=" ++ hex (Hmac.sha256 (Buffer_from K) B))%string ->
      post_github env webex req
      = ([Console IncomingWebhookRequest; Console RejectedInvalidSignature],
         Ok (Reply 401 "Invalid signature"))) /\
  Reply 401 "Signature missing" <> Reply 401 "Invalid signature".
Proof.
  repeat split.
  - intros [H|H]; unfold post_github, verify; rewrite H; reflexivity.
  - intros K B S HK HB HS NE L D.
    unfold post_github, verify. rewrite HK, HB, HS.
    destruct (String.eqb_spec S ""); [contradiction|].
    destruct (expectedSig (Some K) (Some B)) as [e|f] eqn:E; [|discriminate E].
    pose proof (expectedSig_length K B e E) as Le.
    apply Ok_inj in E. cbn [lift seq_M say bind].
    rewrite timingSafeEqual_differ; [reflexivity|congruence|].
    intros Q. apply Buffer_from_inj in Q. congruence.
  - discriminate.
Qed.

Lemma signature_rejections_witness :
  post_github Sample.env Sample.accepting
              (mkRequest (Some "push") None None Sample.push_payload)
  = ([Console IncomingWebhookRequest; Console RejectedMissingSignature],
     Ok (Reply 401 "Signature missing")) /\
  post_github Sample.env Sample.accepting
              (mkRequest (Some "push") (Some Sample.forged_sig)
                         (Some Sample.raw) Sample.push_payload)
  = ([Console IncomingWebhookRequest; Console RejectedInvalidSignature],
     Ok (Reply 401 "Invalid signature")).
Proof.
  split.
  - apply (proj1 (signature_rejections Sample.env Sample.accepting
                    (mkRequest (Some "push") None None Sample.push_payload))).
    left. reflexivity.
  - apply (proj1 (proj2 (signature_rejections Sample.env Sample.accepting
                    (mkRequest (Some "push") (Some Sample.forged_sig)
                               (Some Sample.raw) Sample.push_payload)))
             "s3cret"%string Sample.raw Sample.forged_sig).
    + reflexivity.
    + reflexivity.
    + reflexivity.
    + discriminate.
    + reflexivity.
    + vm_compute. discriminate.
Defined.

(** C7, as stated, fails on both sides.  Under the sample secret and body
    the expected value is [Sample.good_sig].  An empty header value is
    present and differs from it, and is answered "Signature missing"; a
    header value of another length is present and differs from it, and no
    response is written (the handler's promise rejects with a RangeError). *)
Lemma mismatched_signature_without_invalid_reply :
  let empty := mkRequest (Some "push") (Some ""%string) (Some Sample.raw)
                         Sample.push_payload in
  let short := mkRequest (Some "push") (Some Sample.short_sig)
                         (Some Sample.raw) Sample.push_payload in
  expectedSig (GITHUB_SECRET Sample.env) (Some Sample.raw) = Ok Sample.good_sig /\
  ""%string <> Sample.good_sig /\
  Sample.short_sig <> Sample.good_sig /\
  post_github Sample.env Sample.accepting empty
  = ([Console IncomingWebhookRequest; Console RejectedMissingSignature],
     Ok (Reply 401 "Signature missing")) /\
  run_result (post_github Sample.env Sample.accepting empty)
  <> Ok (Reply 401 "Invalid signature") /\
  post_github Sample.env Sample.accepting short
  = ([Console IncomingWebhookRequest], Throw RangeError) /\
  run_result (post_github Sample.env Sample.accepting short)
  <> Ok (Reply 401 "Invalid signature").
Proof.
  vm_compute. repeat split; discriminate.
Qed.

(** C8.  For every authenticated pull_request event whose payload has no
    pull_request object (or no sender), and every authenticated issues event
    whose payload has no issue object (or no sender), the template raises a
    TypeError that nothing catches: the handler writes no response and
    makes no relay call. *)
Theorem incomplete_event_faults (env : Env) (webex : Webex) (req : Request) :
  verify (rawBody req) (x_hub_signature_256 req) (GITHUB_SECRET env) = Ok Valid ->
  (x_github_event req = Some "pull_request"%string /\
   (nullish (prop (body req) "pull_request") = true \/
    nullish (prop (body req) "sender") = true)) \/
  (x_github_event req = Some "issues"%string /\
   (nullish (prop (body req) "issue") = true \/
    nullish (prop (body req) "sender") = true)) ->
  format (x_github_event req) (body req) = Throw TypeError /\
  run_result (post_github env webex req) = Throw TypeError /\
  relay_calls (run_trace (post_github env webex req)) = 0%nat.
Proof.
  intros V L.
  assert (exists k, classify (x_github_event req) = Some k /\
                    message_of k (body req) = Throw TypeError) as (k & C & F).
  { destruct L as [[E L]|[E L]]; rewrite E.
    - exists PullRequest. split; [reflexivity|].
      apply pull_request_message_incomplete, L.
    - exists Issues. split; [reflexivity|].
      apply issues_message_incomplete, L. }
  split; [unfold format; rewrite C, F; reflexivity|].
  destruct (nullish (body req)) eqn:N.
  - unfold post_github. rewrite V, (processing_fields_absent _ N).
    split; reflexivity.
  - rewrite (post_github_valid env webex req V N), C, F. split; reflexivity.
Qed.

Lemma incomplete_event_faults_witness :
  format (Some "pull_request"%string) Sample.pull_request_without_object
  = Throw TypeError /\
  run_result (post_github Sample.env Sample.accepting
                (Sample.signed "pull_request" Sample.pull_request_without_object))
  = Throw TypeError /\
  relay_calls (run_trace (post_github Sample.env Sample.accepting
                 (Sample.signed "pull_request" Sample.pull_request_without_object)))
  = 0%nat.
Proof.
  apply (incomplete_event_faults Sample.env Sample.accepting
           (Sample.signed "pull_request" Sample.pull_request_without_object)).
  - vm_compute. reflexivity.
  - left. split; [reflexivity|]. left. reflexivity.
Defined.

(* ===================================================================== *)
(** * Further properties of the handler                                  *)
(* ===================================================================== *)

(** ** The signature gate *)

Lemma timingSafeEqual_true (a b : Buffer) :
  timingSafeEqual a b = Ok true -> a = b.
Proof.
  unfold timingSafeEqual. destruct (Nat.eqb _ _); [|discriminate].
  intros E. apply Ok_inj in E. apply bytes_eqb_spec, E.
Qed.

Lemma verify_valid_inv
      (raw : option Buffer) (sigHeader secret : option string) :
  verify raw sigHeader secret = Ok Valid ->
  exists (K : string) (B : Buffer),
    secret = Some K /\ raw = Some B /\
    sigHeader = Some ("sha256=" ++ hex (Hmac.sha256 (Buffer_from K) B))%string.
Proof.
  unfold verify. destruct sigHeader as [S|]; [|discriminate].
  destruct (S =? "")%string; [discriminate|].
  destruct secret as [K|]; [|discriminate].
  destruct raw as [B|]; [|discriminate].
  cbn [expectedSig bind].
  destruct (timingSafeEqual _ _) as [[|]|] eqn:T; try discriminate.
  intros _. exists K, B. repeat split.
  apply timingSafeEqual_true, Buffer_from_inj in T. rewrite T. reflexivity.
Qed.

Lemma verify_expected (K : string) (B : Buffer) :
  verify (Some B) (Some ("sha256=" ++ hex (Hmac.sha256 (Buffer_from K) B))%string)
         (Some K) = Ok Valid.
Proof.
  unfold verify.
  change (("sha256=" ++ hex (Hmac.sha256 (Buffer_from K) B)) =? "")%string
    with false.
  cbn [expectedSig bind]. rewrite timingSafeEqual_same. reflexivity.
Qed.

(** X1.  The gate is sound and complete: it answers [Valid] exactly when a
    secret is configured, the raw body was captured, and the header is,
    character for character, "sha256=" followed by the hex HMAC-SHA256 of
    that body under that secret.  No other header value is ever accepted. *)
Theorem verify_valid_only_expected
        (raw : option Buffer) (sigHeader secret : option string) :
  verify raw sigHeader secret = Ok Valid <->
  exists (K : string) (B : Buffer),
    secret = Some K /\ raw = Some B /\
    sigHeader = Some ("sha256=" ++ hex (Hmac.sha256 (Buffer_from K) B))%string.
Proof.
  split; [apply verify_valid_inv|].
  intros (K & B & -> & -> & ->). apply verify_expected.
Qed.

Lemma verify_valid_only_expected_witness :
  exists (K : string) (B : Buffer),
    Some "s3cret"%string = Some K /\ Some Sample.raw = Some B /\
    Some Sample.good_sig
    = Some ("sha256=" ++ hex (Hmac.sha256 (Buffer_from K) B))%string.
Proof.
  apply (proj1 (verify_valid_only_expected
           (Some Sample.raw) (Some Sample.good_sig) (Some "s3cret"%string))).
  vm_compute. reflexivity.
Defined.

Lemma hex_length (bytes : list Z) :
  String.length (hex bytes) = (2 * List.length bytes)%nat.
Proof.
  induction bytes as [|b bytes IH]; [reflexivity|].
  cbn [hex String.length List.length]. rewrite IH. lia.
Qed.

Lemma hex_digit_lower (n : Z) : is_lower_hex (hex_digit n) = true.
Proof.
  unfold hex_digit. generalize (Z.to_nat n) as m. intros m.
  do 16 (destruct m as [|m]; [reflexivity|]).
  destruct m; reflexivity.
Qed.

Lemma hex_lower (bytes : list Z) :
  forallb is_lower_hex (list_ascii_of_string (hex bytes)) = true.
Proof.
  induction bytes as [|b bytes IH]; [reflexivity|].
  cbn [hex list_ascii_of_string forallb].
  rewrite !hex_digit_lower, IH. reflexivity.
Qed.

(** X2.  Whatever the secret and the body, the value the handler expects
    is "sha256=" followed by exactly 64 lower-case hexadecimal digits. *)
Theorem expectedSig_shape (K : string) (B : Buffer) :
  exists h : string,
    expectedSig (Some K) (Some B) = Ok ("sha256=" ++ h)%string /\
    String.length h = 64%nat /\
    forallb is_lower_hex (list_ascii_of_string h) = true.
Proof.
  exists (hex (Hmac.sha256 (Buffer_from K) B)). split; [reflexivity|]. split.
  - rewrite hex_length. unfold Hmac.sha256. rewrite Sha256_digest_length.
    reflexivity.
  - apply hex_lower.
Qed.

Lemma signed_request_faults_without_secret_or_body_general
      (env : Env) (webex : Webex) (req : Request) (S : string) :
  x_hub_signature_256 req = Some S ->
  S <> ""%string ->
  GITHUB_SECRET env = None \/ rawBody req = None ->
  post_github env webex req
  = ([Console IncomingWebhookRequest], Throw TypeError).
Proof.
  intros HS NE U. unfold post_github, verify. rewrite HS.
  destruct (String.eqb_spec S ""); [contradiction|].
  assert (expectedSig (GITHUB_SECRET env) (rawBody req) = Throw TypeError) as ->;
    [|reflexivity].
  unfold expectedSig. destruct U as [-> | ->]; [reflexivity|].
  destruct (GITHUB_SECRET env); reflexivity.
Qed.

(** X3.  Without a configured secret, or without a captured raw body (the
    body parser skipped the request), a request that carries a non-empty
    signature header is neither accepted nor answered 401: [createHmac] or
    [update] raises a TypeError, the handler's promise rejects and nothing
    is relayed. *)
Theorem signed_request_faults_without_secret_or_body
        (env : Env) (webex : Webex) (req : Request) (S : string) :
  x_hub_signature_256 req = Some S ->
  S <> ""%string ->
  GITHUB_SECRET env = None \/ rawBody req = None ->
  post_github env webex req
  = ([Console IncomingWebhookRequest], Throw TypeError) /\
  relay_calls (run_trace (post_github env webex req)) = 0%nat.
Proof.
  intros HS NE U.
  rewrite (signed_request_faults_without_secret_or_body_general
             env webex req S HS NE U).
  split; reflexivity.
Qed.

Lemma signed_request_faults_without_secret_or_body_witness :
  post_github (mkEnv None (Some "room-1"%string)) Sample.accepting
              (Sample.signed "push" Sample.push_payload)
  = ([Console IncomingWebhookRequest], Throw TypeError).
Proof.
  apply (proj1 (signed_request_faults_without_secret_or_body
           (mkEnv None (Some "room-1"%string)) Sample.accepting
           (Sample.signed "push" Sample.push_payload) Sample.good_sig
           eq_refl ltac:(discriminate) (or_introl eq_refl))).
Defined.

(** ** The runs of the handler *)

(** Every run, by the answer of the gate. *)
Lemma post_github_cases (env : Env) (webex : Webex) (req : Request) :
  post_github env webex req =
  match verify (rawBody req) (x_hub_signature_256 req) (GITHUB_SECRET env) with
  | Throw e => ([Console IncomingWebhookRequest], Throw e)
  | Ok Missing =>
      ([Console IncomingWebhookRequest; Console RejectedMissingSignature],
       Ok (Reply 401 "Signature missing"))
  | Ok Invalid =>
      ([Console IncomingWebhookRequest; Console RejectedInvalidSignature],
       Ok (Reply 401 "Invalid signature"))
  | Ok Valid =>
      if nullish (body req)
      then ([Console IncomingWebhookRequest; Console SignatureValidated],
            Throw TypeError)
      else
        match classify (x_github_event req) with
        | Some k =>
            match message_of k (body req) with
            | Ok message =>
                ([Console IncomingWebhookRequest; Console SignatureValidated;
                  Console ProcessingEvent; Console (details_of k);
                  Console SendingMessage;
                  MessagesCreate (ROOM_ID env) message;
                  Console (if webex (ROOM_ID env) message then MessagePosted
                           else ErrorPosting);
                  Console ProcessingCompleted],
                 Ok (Reply 200 "Event processed"))
            | Throw e =>
                ([Console IncomingWebhookRequest; Console SignatureValidated;
                  Console ProcessingEvent], Throw e)
            end
        | None =>
            ([Console IncomingWebhookRequest; Console SignatureValidated;
              Console ProcessingEvent; Console UnhandledEventType],
             Ok (Reply 200 "Event received"))
        end
  end.
Proof.
  destruct (verify _ _ _) as [[| |]|e] eqn:V;
    try (unfold post_github; rewrite V; reflexivity).
  destruct (nullish (body req)) eqn:N.
  - unfold post_github. rewrite V, (processing_fields_absent _ N). reflexivity.
  - apply post_github_valid; assumption.
Qed.

(** X4.  At most one outbound message per request: a run calls
    [webex.messages.create] once when the gate answers [Valid], the event is
    a supported one and its template renders the payload, and never
    otherwise. *)
Theorem relay_at_most_once (env : Env) (webex : Webex) (req : Request) :
  let calls := relay_calls (run_trace (post_github env webex req)) in
  let relayed :=
    verify (rawBody req) (x_hub_signature_256 req) (GITHUB_SECRET env) = Ok Valid /\
    exists k message,
      classify (x_github_event req) = Some k /\
      message_of k (body req) = Ok message in
  (calls = 0%nat \/ calls = 1%nat) /\ (calls = 1%nat <-> relayed).
Proof.
  cbv zeta. rewrite post_github_cases.
  destruct (verify _ _ _) as [[| |]|e] eqn:V;
    try (split; [left; reflexivity|];
         split; [discriminate | intros [? _]; discriminate]).
  destruct (nullish (body req)) eqn:N.
  { split; [left; reflexivity|].
    split; [discriminate|]. intros [_ (k & m & _ & F)].
    apply message_of_needs_payload in F. congruence. }
  destruct (classify (x_github_event req)) as [k|].
  - destruct (message_of k (body req)) as [m|e] eqn:F.
    + split; [right; reflexivity|]. split; [|reflexivity].
      intros _. split; [reflexivity|]. exists k, m. split; [reflexivity|exact F].
    + split; [left; reflexivity|]. split; [discriminate|].
      intros [_ (k' & m & C & F')]. injection C as <-. congruence.
  - split; [left; reflexivity|]. split; [discriminate|].
    intros [_ (k & m & C & _)]. discriminate C.
Qed.

(** X5.  The HTTP outcome never depends on the Webex SDK: two runs on the
    same request that differ only in how [messages.create] settles end in
    the same response (or the same fault), attempt the same relay calls, and
    differ at most in the console line that follows the call. *)
Theorem response_independent_of_relay
        (env : Env) (webex webex' : Webex) (req : Request) :
  run_result (post_github env webex req)
  = run_result (post_github env webex' req) /\
  filter (fun e => match e with
                   | Console MessagePosted | Console ErrorPosting => false
                   | _ => true
                   end) (run_trace (post_github env webex req))
  = filter (fun e => match e with
                     | Console MessagePosted | Console ErrorPosting => false
                     | _ => true
                     end) (run_trace (post_github env webex' req)).
Proof.
  rewrite !post_github_cases.
  destruct (verify _ _ _) as [[| |]|e]; try (split; reflexivity).
  destruct (nullish (body req)); [split; reflexivity|].
  destruct (classify (x_github_event req)) as [k|]; [|split; reflexivity].
  destruct (message_of k (body req)) as [m|e]; [|split; reflexivity].
  split; [reflexivity|].
  destruct k, (webex (ROOM_ID env) m), (webex' (ROOM_ID env) m); reflexivity.
Qed.



(** X7.  The handler writes one of four responses and no other (never a
    400 or a 500), and each tells what happened: 401 "Signature missing" for
    an absent or empty header, 401 "Invalid signature" for a refused one,
    200 "Event received" for an authenticated event outside the three
    supported types, 200 "Event processed" for an authenticated supported
    event whose message was built. *)
Theorem responses_of_the_handler
        (env : Env) (webex : Webex) (req : Request) (r : reply) :
  run_result (post_github env webex req) = Ok r ->
  let gate := verify (rawBody req) (x_hub_signature_256 req) (GITHUB_SECRET env) in
  (r = Reply 401 "Signature missing" /\ gate = Ok Missing) \/
  (r = Reply 401 "Invalid signature" /\ gate = Ok Invalid) \/
  (r = Reply 200 "Event received" /\ gate = Ok Valid /\
   classify (x_github_event req) = None) \/
  (r = Reply 200 "Event processed" /\ gate = Ok Valid /\
   exists k message, classify (x_github_event req) = Some k /\
                     message_of k (body req) = Ok message).
Proof.
  cbv zeta. rewrite post_github_cases.
  destruct (verify _ _ _) as [[| |]|e]; unfold run_result; cbn [snd]; intros E;
    try discriminate E.
  - left. apply Ok_inj in E. split; [symmetry; exact E|reflexivity].
  - right. left. apply Ok_inj in E. split; [symmetry; exact E|reflexivity].
  - destruct (nullish (body req)); [discriminate E|].
    destruct (classify (x_github_event req)) as [k|].
    + destruct (message_of k (body req)) as [m|e] eqn:F; [|discriminate E].
      right. right. right. apply Ok_inj in E.
      split; [symmetry; exact E|]. split; [reflexivity|].
      exists k, m. split; [reflexivity|exact F].
    + right. right. left. apply Ok_inj in E.
      split; [symmetry; exact E|]. split; reflexivity.
Qed.

Lemma responses_of_the_handler_witness :
  run_result (post_github Sample.env Sample.rejecting
                (Sample.signed "issues" Sample.issue_opened))
  = Ok (Reply 200 "Event processed") /\
  verify (Some Sample.raw) (Some Sample.good_sig) (Some "s3cret"%string)
  = Ok Valid.
Proof.
  assert (run_result (post_github Sample.env Sample.rejecting
                        (Sample.signed "issues" Sample.issue_opened))
          = Ok (Reply 200 "Event processed")) as R by (vm_compute; reflexivity).
  split; [exact R|].
  destruct (responses_of_the_handler _ _ _ _ R)
    as [[E _]|[[E _]|[[E _]|[_ [G _]]]]]; try discriminate E.
  exact G.
Defined.

(** ** The pull request and issue templates *)

(** One step of a template on the way to its text: a property read of a
    value known to be present, or a conversion known to succeed. *)
Ltac present_step :=
  match goal with
  | N : nullish ?v = false |- context [get ?v ?k] =>
      rewrite (get_present v k N); cbn [bind]
  | E : to_string ?v = Ok _ |- context [to_string ?v] =>
      rewrite E; cbn [bind]
  end.

(** One step of a template on the way to its fault. *)
Ltac failing_step :=
  match goal with
  | |- Throw TypeError = Throw TypeError => reflexivity
  | |- bind (get ?v ?k) _ = Throw TypeError =>
      let N := fresh "N" in
      destruct (nullish v) eqn:N;
      [rewrite (get_absent v k N); reflexivity
      |rewrite (get_present v k N); cbn [bind]]
  | |- bind (to_string ?v) _ = Throw TypeError =>
      let P := fresh "P" in
      destruct (printable v) eqn:P;
      [let s := fresh "s" in let E := fresh "E" in
       destruct (to_string_printable v P) as [s E]; rewrite E; cbn [bind]
      |rewrite (to_string_unprintable v P); reflexivity]
  end.

(** Use what the steps have established in the hypothesis [R]. *)
Ltac facts_into R :=
  repeat match goal with
         | H : nullish _ = false |- _ => rewrite H in R; clear H
         | H : printable _ = true |- _ => rewrite H in R; clear H
         | H : nullish _ = false |- _ => clear H
         | H : printable _ = true |- _ => clear H
         end.

(** X8.  The pull request template builds its message exactly on the
    payloads that have a pull_request and a sender (neither undefined nor
    null) and whose action, number, title, login and URL convert to strings;
    on every other payload it raises a TypeError.  A missing leaf (no title,
    say) is not a fault: it renders as "undefined". *)
Theorem pull_request_message_renders (payload : value) :
  (pull_request_renders payload = true ->
   exists a n t l u : string,
     to_string (prop payload "action") = Ok a /\
     to_string (prop payload "number") = Ok n /\
     to_string (prop (prop payload "pull_request") "title") = Ok t /\
     to_string (prop (prop payload "sender") "login") = Ok l /\
     to_string (prop (prop payload "pull_request") "html_url") = Ok u /\
     pull_request_message payload = Ok (pull_request_text a n t l u)) /\
  (pull_request_renders payload = false ->
   pull_request_message payload = Throw TypeError).
Proof.
  unfold pull_request_renders. split; intros R.
  - rewrite !andb_true_iff, !negb_true_iff in R.
    destruct R as [[[[[[[N Pa] Pn] Npr] Pt] Ns] Pl] Pu].
    apply to_string_printable in Pa as [a Ea], Pn as [n En], Pt as [t Et],
        Pl as [l El], Pu as [u Eu].
    exists a, n, t, l, u. repeat (split; [assumption|]).
    unfold pull_request_message. repeat present_step. reflexivity.
  - unfold pull_request_message. repeat failing_step.
    exfalso. facts_into R. discriminate R.
Qed.

Lemma pull_request_message_renders_witness :
  pull_request_message
    (JObj [("pull_request", JObj []); ("sender", JObj [])])
  = Ok (pull_request_text "undefined" "undefined" "undefined" "undefined"
                          "undefined").
Proof.
  destruct (proj1 (pull_request_message_renders
                     (JObj [("pull_request", JObj []); ("sender", JObj [])]))
                  eq_refl)
    as (a & n & t & l & u & Ea & En & Et & El & Eu & F).
  rewrite F.
  injection Ea as <-. injection En as <-. injection Et as <-.
  injection El as <-. injection Eu as <-. reflexivity.
Defined.

(** X9.  The same for the issue template: it builds its message exactly on
    the payloads that have an issue and a sender and whose action, issue
    number, title, login and URL convert to strings, and raises a TypeError
    on every other payload. *)
Theorem issues_message_renders (payload : value) :
  (issue_renders payload = true ->
   exists a n t l u : string,
     to_string (prop payload "action") = Ok a /\
     to_string (prop (prop payload "issue") "number") = Ok n /\
     to_string (prop (prop payload "issue") "title") = Ok t /\
     to_string (prop (prop payload "sender") "login") = Ok l /\
     to_string (prop (prop payload "issue") "html_url") = Ok u /\
     issues_message payload = Ok (issue_text a n t l u)) /\
  (issue_renders payload = false ->
   issues_message payload = Throw TypeError).
Proof.
  unfold issue_renders. split; intros R.
  - rewrite !andb_true_iff, !negb_true_iff in R.
    destruct R as [[[[[[[N Pa] Ni] Pn] Pt] Ns] Pl] Pu].
    apply to_string_printable in Pa as [a Ea], Pn as [n En], Pt as [t Et],
        Pl as [l El], Pu as [u Eu].
    exists a, n, t, l, u. repeat (split; [assumption|]).
    unfold issues_message. repeat present_step. reflexivity.
  - unfold issues_message. repeat failing_step.
    exfalso. facts_into R. discriminate R.
Qed.

Lemma issues_message_renders_witness :
  issues_message (JObj [("issue", JObj [("number", JNum 3)]); ("sender", JArr [])])
  = Ok (issue_text "undefined" "3" "undefined" "undefined" "undefined").
Proof.
  destruct (proj1 (issues_message_renders
                     (JObj [("issue", JObj [("number", JNum 3)]);
                            ("sender", JArr [])]))
                  eq_refl)
    as (a & n & t & l & u & Ea & En & Et & El & Eu & F).
  rewrite F.
  injection Ea as <-. injection En as <-. injection Et as <-.
  injection El as <-. injection Eu as <-. reflexivity.
Defined.





(* ===================================================================== *)
(** * The application around the handler                                 *)
(* ===================================================================== *)



(** X13.  Any other failure of the body parser (a body over the 10 MB
    limit, say) is swallowed by the bare [next()] of the error middleware
    and the request goes on to the webhook handler without a raw body: with
    a signature header it ends in an uncaught TypeError, without one in
    401 "Signature missing".  It is never answered with the parser's own
    status. *)
Theorem refused_body_reaches_the_handler
        (env : Env) (webex : Webex) (now : string) (inc : App.Incoming)
        (error : App.failure) :
  App.parsed inc = App.Refused error ->
  App.json_parse_failure error = false ->
  App.target inc = App.Github ->
  (forall S, App.hub_signature inc = Some S -> S <> ""%string ->
     App.app env webex now inc
     = ([App.FromHandler (Console IncomingWebhookRequest)], Throw TypeError)) /\
  (App.hub_signature inc = None \/ App.hub_signature inc = Some ""%string ->
     App.app env webex now inc
     = ([App.FromHandler (Console IncomingWebhookRequest);
         App.FromHandler (Console RejectedMissingSignature)],
        Ok (Some (App.Send (Reply 401 "Signature missing"))))).
Proof.
  intros P F G. unfold App.app, App.json_error_middleware, App.dispatch.
  rewrite P, F, G. split.
  - intros S HS NE.
    rewrite (signed_request_faults_without_secret_or_body_general
               env webex
               (mkRequest (App.github_event inc) (App.hub_signature inc) None
                          (App.unparsed_body inc))
               S HS NE (or_intror eq_refl)).
    reflexivity.
  - intros H. rewrite post_github_cases. cbn [rawBody x_hub_signature_256].
    destruct H as [-> | ->]; reflexivity.
Qed.

Lemma refused_body_reaches_the_handler_witness :
  let too_large := App.mkFailure false (JNum 413) false in
  App.app Sample.env Sample.accepting "2024-01-01T00:00:00.000Z"
          (App.mkIncoming App.Github (Some "push") (Some Sample.good_sig)
                          (App.Refused too_large) (JObj []))
  = ([App.FromHandler (Console IncomingWebhookRequest)], Throw TypeError).
Proof.
  intros too_large.
  apply (proj1 (refused_body_reaches_the_handler
                  Sample.env Sample.accepting "2024-01-01T00:00:00.000Z"
                  (App.mkIncoming App.Github (Some "push") (Some Sample.good_sig)
                                  (App.Refused too_large) (JObj []))
                  too_large eq_refl eq_refl eq_refl) Sample.good_sig).
  - reflexivity.
  - discriminate.
Defined.

(** X14.  The health check needs no signature and no secret and never
    touches the relay: unless the body was malformed JSON, [GET /] is
    answered 200 with the status object, whose status is "OK" and whose
    endpoints name "/github" and "/". *)
Theorem health_check_is_open
        (env : Env) (webex : Webex) (now : string) (inc : App.Incoming) :
  App.target inc = App.Health ->
  match App.parsed inc with
  | App.Malformed _ => False
  | App.Refused error => App.json_parse_failure error = false
  | _ => True
  end ->
  App.app env webex now inc = ([], Ok (Some (App.Json 200 (App.health now)))) /\
  prop (App.health now) "status" = JStr "OK" /\
  prop (App.health now) "timestamp" = JStr now /\
  prop (App.health now) "endpoints"
  = JObj [("github_webhook", JStr "/github"); ("health", JStr "/")].
Proof.
  intros T P. split; [|repeat split].
  unfold App.app, App.json_error_middleware, App.dispatch. rewrite T.
  destruct (App.parsed inc); try reflexivity; [contradiction|].
  rewrite P. reflexivity.
Qed.

Lemma health_check_is_open_witness :
  App.app (mkEnv None None) Sample.rejecting "2024-01-01T00:00:00.000Z"
          (App.mkIncoming App.Health None None App.Skipped JUndefined)
  = ([], Ok (Some (App.Json 200 (App.health "2024-01-01T00:00:00.000Z")))).
Proof.
  apply (health_check_is_open
           (mkEnv None None) Sample.rejecting "2024-01-01T00:00:00.000Z"
           (App.mkIncoming App.Health None None App.Skipped JUndefined)
           eq_refl I).
Defined.

(** Where a relay call of the handler comes from. *)
Lemma relay_call_inv (env : Env) (webex : Webex) (req : Request)
      (room : option string) (markdown : string) :
  In (MessagesCreate room markdown) (run_trace (post_github env webex req)) ->
  verify (rawBody req) (x_hub_signature_256 req) (GITHUB_SECRET env) = Ok Valid /\
  room = ROOM_ID env /\
  format (x_github_event req) (body req) = Ok (Some markdown).
Proof.
  rewrite post_github_cases. unfold run_trace, format.
  destruct (verify _ _ _) as [[| |]|e]; cbn [fst In];
    try (intros H; repeat destruct H as [H|H]; try discriminate H; contradiction).
  destruct (nullish (body req));
    [intros H; repeat destruct H as [H|H]; try discriminate H; contradiction|].
  destruct (classify (x_github_event req)) as [k|];
    [|intros H; repeat destruct H as [H|H]; try discriminate H; contradiction].
  destruct (message_of k (body req)) as [m|e];
    [|intros H; repeat destruct H as [H|H]; try discriminate H; contradiction].
  cbn [fst In bind].
  intros H; repeat destruct H as [H|H]; try discriminate H; try contradiction.
  injection H as <- <-. repeat split.
Qed.

(** X15.  A message reaches the Webex space only for a delivery to
    [POST /github] whose body was parsed and whose signature header is the
    HMAC of the raw body under the configured secret; the room is the
    configured one and the text is the formatter's message for the event
    header and the parsed payload. *)
Theorem relay_only_for_authenticated_deliveries
        (env : Env) (webex : Webex) (now : string) (inc : App.Incoming)
        (room : option string) (markdown : string) :
  In (App.FromHandler (MessagesCreate room markdown))
     (fst (App.app env webex now inc)) ->
  App.target inc = App.Github /\
  room = ROOM_ID env /\
  exists (K : string) (raw : Buffer) (payload : value),
    GITHUB_SECRET env = Some K /\
    App.parsed inc = App.Parsed raw payload /\
    App.hub_signature inc
    = Some ("sha256=" ++ hex (Hmac.sha256 (Buffer_from K) raw))%string /\
    format (App.github_event inc) payload = Ok (Some markdown).
Proof.
  assert (forall raw payload,
             In (App.FromHandler (MessagesCreate room markdown))
                (fst (App.dispatch env webex now inc raw payload)) ->
             App.target inc = App.Github /\ room = ROOM_ID env /\
             exists K B, GITHUB_SECRET env = Some K /\ raw = Some B /\
               App.hub_signature inc
               = Some ("sha256=" ++ hex (Hmac.sha256 (Buffer_from K) B))%string /\
               format (App.github_event inc) payload = Ok (Some markdown)) as D.
  { intros raw payload. unfold App.dispatch.
    destruct (App.target inc); [intros [] | | intros []].
    destruct (post_github env webex _) as [t r] eqn:R. cbn [fst].
    intros H. apply in_map_iff in H as (e & E & H). injection E as ->.
    replace t with (run_trace (post_github env webex
                      (mkRequest (App.github_event inc) (App.hub_signature inc)
                                 raw payload))) in H by (rewrite R; reflexivity).
    apply relay_call_inv in H as (V & -> & F). cbn in V, F.
    apply verify_valid_inv in V as (K & B & HK & -> & HS).
    split; [reflexivity|]. split; [reflexivity|]. exists K, B. auto. }
  unfold App.app, App.json_error_middleware.
  destruct (App.parsed inc) as [|raw payload|raw|error] eqn:P.
  - intros H. apply D in H as (_ & _ & K & B & _ & E & _). discriminate E.
  - intros H. apply D in H as (T & R & K & B & HK & E & HS & F).
    injection E as <-. split; [exact T|]. split; [exact R|].
    exists K, raw, payload. auto.
  - change (App.json_parse_failure (App.mkFailure true (JNum 400) true))
      with true.
    cbn [fst In]. intros [H|[]]. discriminate H.
  - destruct (App.json_parse_failure error);
      [cbn [fst In]; intros [H|[]]; discriminate H|].
    destruct (App.dispatch env webex now inc None (App.unparsed_body inc))
      as [t r] eqn:R. cbn [fst app].
    intros H.
    replace t with (fst (App.dispatch env webex now inc None (App.unparsed_body inc)))
      in H by (rewrite R; reflexivity).
    apply D in H as (_ & _ & K & B & _ & E & _). discriminate E.
Qed.

Lemma relay_only_for_authenticated_deliveries_witness :
  let inc := App.mkIncoming App.Github (Some "push") (Some Sample.good_sig)
                            (App.Parsed Sample.raw Sample.push_payload)
                            JUndefined in
  App.target inc = App.Github /\
  exists (K : string) (raw : Buffer) (payload : value),
    GITHUB_SECRET Sample.env = Some K /\
    App.parsed inc = App.Parsed raw payload /\
    App.hub_signature inc
    = Some ("sha256=" ++ hex (Hmac.sha256 (Buffer_from K) raw))%string /\
    format (App.github_event inc) payload
    = Ok (Some "**Push Event**: 2 commits pushed to refs/heads/main by alice. Compare: u"%string).
Proof.
  intros inc.
  destruct (relay_only_for_authenticated_deliveries
              Sample.env Sample.accepting "2024-01-01T00:00:00.000Z" inc
              (Some "room-1"%string)
              "**Push Event**: 2 commits pushed to refs/heads/main by alice. Compare: u")
    as (T & _ & E).
  - vm_compute. do 5 right. left. reflexivity.
  - split; [exact T|exact E].
Defined.

(** X16.  The startup check reports the webhook secret as missing exactly
    when GITHUB_SECRET is unset or empty, and the server starts either way.
    Unset, every signed delivery then ends in a TypeError; empty, the gate
    stays live and accepts the deliveries signed with the empty key. *)
Theorem secret_reported_missing
        (pe : App.ProcessEnv) :
  let env := App.handler_env pe in
  (App.githubSecret (App.environment_check pe) = false <->
   GITHUB_SECRET env = None \/ GITHUB_SECRET env = Some ""%string) /\
  (GITHUB_SECRET env = None ->
   forall raw S, S <> ""%string ->
     verify raw (Some S) (GITHUB_SECRET env) = Throw TypeError) /\
  (GITHUB_SECRET env = Some ""%string ->
   forall B : Buffer,
     verify (Some B) (Some ("sha256=" ++ hex (Hmac.sha256 [] B))%string)
            (GITHUB_SECRET env) = Ok Valid).
Proof.
  cbv zeta. repeat split.
  - unfold App.environment_check, App.githubSecret, App.env_value.
    destruct (GITHUB_SECRET (App.handler_env pe)) as [s|]; [|auto].
    cbn [truthy]. rewrite negb_false_iff. intros E.
    apply String.eqb_eq in E. subst. auto.
  - unfold App.environment_check, App.githubSecret, App.env_value.
    intros [-> | ->]; reflexivity.
  - intros -> raw S NE. unfold verify.
    destruct (String.eqb_spec S ""); [contradiction|reflexivity].
  - intros -> B. apply (verify_expected "" B).
Qed.

Lemma secret_reported_missing_witness :
  let pe := App.mkProcessEnv (Some "token") None
                             (mkEnv (Some ""%string) (Some "room-1"%string)) in
  App.githubSecret (App.environment_check pe) = false /\
  verify (Some Sample.raw)
         (Some ("sha256=" ++ hex (Hmac.sha256 [] Sample.raw))%string)
         (GITHUB_SECRET (App.handler_env pe)) = Ok Valid.
Proof.
  intros pe. split.
  - apply (proj1 (secret_reported_missing pe)). right. reflexivity.
  - apply (proj2 (proj2 (secret_reported_missing pe)) eq_refl Sample.raw).
Defined.

(* ===================================================================== *)
(** * The compatibility loader                                           *)
(* ===================================================================== *)

Module LoaderFacts.
Import Loader.

Lemma own_put_same k p l : own k (put k p l) = Some p.
Proof.
  induction l as [|[k' p'] l IH]; cbn [put own].
  - rewrite String.eqb_refl. reflexivity.
  - destruct (String.eqb_spec k' k) as [->|N]; cbn [own].
    + rewrite String.eqb_refl. reflexivity.
    + destruct (String.eqb_spec k' k); [contradiction|exact IH].
Qed.

Lemma own_put_other k k' p l : k' <> k -> own k' (put k p l) = own k' l.
Proof.
  intros N. induction l as [|[k0 p0] l IH]; cbn [put own].
  - destruct (String.eqb_spec k k'); [congruence|reflexivity].
  - destruct (String.eqb_spec k0 k) as [->|N0]; cbn [own].
    + destruct (String.eqb_spec k k'); [congruence|reflexivity].
    + rewrite IH. reflexivity.
Qed.

Lemma own_drop_same k l : own k (drop k l) = None.
Proof.
  induction l as [|[k' p'] l IH]; cbn [drop own]; [reflexivity|].
  destruct (String.eqb_spec k' k) as [->|N]; [exact IH|].
  cbn [own]. destruct (String.eqb_spec k' k); [contradiction|exact IH].
Qed.

Lemma own_drop_other k k' l : k' <> k -> own k' (drop k l) = own k' l.
Proof.
  intros N. induction l as [|[k0 p0] l IH]; cbn [drop own]; [reflexivity|].
  destruct (String.eqb_spec k0 k) as [->|N0].
  - destruct (String.eqb_spec k k'); [congruence|exact IH].
  - cbn [own]. rewrite IH. reflexivity.
Qed.

Lemma update_same h l o : update h l o l = o.
Proof. unfold update. rewrite Nat.eqb_refl. reflexivity. Qed.

Lemma update_other h l l' o : l' <> l -> update h l o l' = h l'.
Proof.
  intros N. unfold update. destruct (Nat.eqb_spec l' l); [contradiction|reflexivity].
Qed.

Lemma same_object obj l : same obj (VObject l) = true -> obj = VObject l.
Proof.
  destruct obj; cbn [same]; try discriminate.
  intros E. apply Nat.eqb_eq in E. subst. reflexivity.
Qed.

Lemma same_refl v : same v v = true.
Proof.
  destruct v; cbn [same]; auto using Bool.eqb_reflx, Z.eqb_refl, String.eqb_refl, Nat.eqb_refl.
Qed.

(** What a call of the built-in does to a property it is not asked about:
    nothing. *)
Lemma defineProperty_elsewhere h obj prop arg l k :
  obj <> VObject l \/ k <> prop ->
  own k (props (fst (defineProperty h obj prop arg) l)) = own k (props (h l)).
Proof.
  intros D. unfold defineProperty.
  destruct obj as [| | | | |l0]; try reflexivity.
  destruct (ToPropertyDescriptor arg) as [d|e]; [|reflexivity].
  unfold define_own.
  destruct (Nat.eqb_spec l l0) as [->|N].
  - destruct D as [D|D]; [contradiction D; reflexivity|].
    destruct (own prop (props (h l0))) as [p|].
    + destruct (allowed d p); [|reflexivity].
      cbn [fst]. rewrite update_same. cbn [with_props props].
      apply own_put_other, D.
    + destruct (extensible (h l0)); [|reflexivity].
      cbn [fst]. rewrite update_same. cbn [with_props props].
      apply own_put_other, D.
  - destruct (own prop (props (h l0))) as [p|].
    + destruct (allowed d p); [|reflexivity].
      cbn [fst]. rewrite update_other by exact N. reflexivity.
    + destruct (extensible (h l0)); [|reflexivity].
      cbn [fst]. rewrite update_other by exact N. reflexivity.
Qed.

(** The descriptor the replacement builds is never an accessor one. *)
Lemma spread_descriptor arg d :
  ToPropertyDescriptor (Attributes (spread arg)) = Ok d ->
  is_accessor_descriptor d = false /\
  d_writable d = Some true /\ d_configurable d = Some true.
Proof.
  unfold ToPropertyDescriptor, is_accessor_descriptor.
  destruct arg as [|a]; cbn [spread a_get a_set a_value a_writable
                               a_enumerable a_configurable fn_field_of bind].
  - cbn. intros E. apply Ok_inj in E. subst d. repeat split.
  - destruct (fn_field_of (a_get a)) as [g|]; [|discriminate]. cbn [bind].
    destruct (fn_field_of (a_set a)) as [s|]; [|discriminate]. cbn [bind].
    cbn [present]. rewrite orb_true_r, andb_true_r.
    destruct (present g || present s) eqn:A; [discriminate|].
    intros E. apply Ok_inj in E. subst d. cbn. auto.
Qed.

(** The replacement, called on the global object for "navigator". *)
Lemma patched_global_navigator acc h arg :
  patched acc h (VObject global) "navigator" arg =
  match defineProperty h (VObject global) "navigator" (Attributes (spread arg)) with
  | (h', Ok o) => mkOutcome h' [] (Ok o)
  | (_, Throw _) => mkOutcome h [Bypassed] (Ok (VObject global))
  end.
Proof. reflexivity. Qed.

(** One call of the replacement leaves an open navigator open. *)
Lemma patched_keeps_navigator_open acc h obj prop arg :
  navigator_open h = true ->
  navigator_open (heap_after (patched acc h obj prop arg)) = true.
Proof.
  intros O. unfold patched.
  destruct (if same obj (VObject global) then Ok true
            else bind (read acc h global "commonjsGlobal")
                      (fun cg => Ok (same obj cg))) as [on_global|e] eqn:G;
    [|exact O].
  destruct (on_global && (prop =? "navigator")%string) eqn:B.
  - apply andb_true_iff in B as [-> B]. apply String.eqb_eq in B. subst prop.
    destruct (same obj (VObject global)) eqn:S.
    + apply same_object in S. subst obj.
      unfold defineProperty.
      destruct (ToPropertyDescriptor (Attributes (spread arg))) as [d|e] eqn:T;
        [|exact O].
      apply spread_descriptor in T as (A & W & C).
      unfold define_own. unfold navigator_open in O.
      destruct (own "navigator" (props (h global))) as [p|] eqn:P;
        [|discriminate O].
      destruct p as [v w e c|]; [|discriminate O].
      destruct w; [|discriminate O]. destruct c; [|destruct e; discriminate O].
      cbn [allowed orb heap_after].
      unfold navigator_open. rewrite update_same. cbn [with_props props].
      rewrite own_put_same. cbn [applied]. rewrite A, W, C. reflexivity.
    + assert (obj <> VObject global) as N
          by (intros ->; rewrite same_refl in S; discriminate S).
      pose proof (defineProperty_elsewhere h obj "navigator"
                    (Attributes (spread arg)) global "navigator" (or_introl N)) as K.
      destruct (defineProperty h obj "navigator" (Attributes (spread arg)))
        as [h' [o|e]]; [|exact O].
      cbn [heap_after]. cbn [fst] in K. unfold navigator_open. rewrite K.
      exact O.
  - assert (obj <> VObject global \/ "navigator"%string <> prop) as N.
    { destruct (same obj (VObject global)) eqn:S.
      - right. apply Ok_inj in G. subst on_global. cbn [andb] in B.
        intros <-. discriminate B.
      - left. intros ->. rewrite same_refl in S. discriminate S. }
    pose proof (defineProperty_elsewhere h obj prop arg global "navigator" N) as K.
    destruct (defineProperty h obj prop arg) as [h' r].
    cbn [heap_after]. cbn [fst] in K. unfold navigator_open. rewrite K. exact O.
Qed.

(** One call of the replacement leaves a navigator that is not
    configurable exactly as it is. *)
Lemma patched_keeps_locked_navigator acc h obj prop arg p :
  own "navigator" (props (h global)) = Some p ->
  configurable_of p = false ->
  own "navigator" (props (heap_after (patched acc h obj prop arg) global)) = Some p.
Proof.
  intros P C. unfold patched.
  destruct (if same obj (VObject global) then Ok true
            else bind (read acc h global "commonjsGlobal")
                      (fun cg => Ok (same obj cg))) as [on_global|e] eqn:G;
    [|exact P].
  destruct (on_global && (prop =? "navigator")%string) eqn:B.
  - apply andb_true_iff in B as [-> B]. apply String.eqb_eq in B. subst prop.
    destruct (same obj (VObject global)) eqn:S.
    + apply same_object in S. subst obj.
      unfold defineProperty.
      destruct (ToPropertyDescriptor (Attributes (spread arg))) as [d|e] eqn:T;
        [|exact P].
      apply spread_descriptor in T as (_ & _ & Cd).
      unfold define_own. rewrite P.
      assert (allowed d p = false) as ->; [|exact P].
      destruct p as [v w e c|g s e c]; cbn [configurable_of] in C; subst c;
        cbn [allowed orb]; rewrite Cd; reflexivity.
    + assert (obj <> VObject global) as N
          by (intros ->; rewrite same_refl in S; discriminate S).
      pose proof (defineProperty_elsewhere h obj "navigator"
                    (Attributes (spread arg)) global "navigator" (or_introl N)) as K.
      destruct (defineProperty h obj "navigator" (Attributes (spread arg)))
        as [h' [o|e]]; [|exact P].
      cbn [heap_after]. cbn [fst] in K. rewrite K. exact P.
  - assert (obj <> VObject global \/ "navigator"%string <> prop) as N.
    { destruct (same obj (VObject global)) eqn:S.
      - right. apply Ok_inj in G. subst on_global. cbn [andb] in B.
        intros <-. discriminate B.
      - left. intros ->. rewrite same_refl in S. discriminate S. }
    pose proof (defineProperty_elsewhere h obj prop arg global "navigator" N) as K.
    destruct (defineProperty h obj prop arg) as [h' r].
    cbn [heap_after]. cbn [fst] in K. rewrite K. exact P.
Qed.

(** X17.  On a global object that is extensible, whose navigator is absent
    or configurable and that has no commonjsGlobal yet, Method 1 leaves
    navigator as a data property holding the polyfill, writable, enumerable
    and configurable, makes commonjsGlobal refer to the global object,
    prints the success line, and touches nothing else. *)
Theorem method1_installs_polyfill
        (acc : accessors) (navigator : jsval) (h : heap) :
  extensible (h global) = true ->
  (own "navigator" (props (h global)) = None \/
   exists p, own "navigator" (props (h global)) = Some p /\
             configurable_of p = true) ->
  own "commonjsGlobal" (props (h global)) = None ->
  let h' := fst (method1 acc navigator h) in
  snd (method1 acc navigator h) = [PolyfillApplied] /\
  own "navigator" (props (h' global)) = Some (Data navigator true true true) /\
  own "commonjsGlobal" (props (h' global))
  = Some (Data (VObject global) true true true) /\
  (forall k, k <> "navigator"%string -> k <> "commonjsGlobal"%string ->
             own k (props (h' global)) = own k (props (h global))) /\
  (forall l, l <> global -> h' l = h l).
Proof.
  intros X N G. cbv zeta.
  set (h1 := delete h global "navigator").
  assert (own "navigator" (props (h1 global)) = None /\
          extensible (h1 global) = true /\
          (forall k, k <> "navigator"%string ->
                     own k (props (h1 global)) = own k (props (h global))) /\
          (forall l, l <> global -> h1 l = h l)) as (N1 & X1 & K1 & L1).
  { unfold h1, delete. destruct N as [N|(p & N & C)]; rewrite N.
    - repeat split; auto.
    - rewrite C. rewrite update_same. cbn [with_props props extensible].
      repeat split; auto.
      + apply own_drop_same.
      + intros k D. apply own_drop_other, D.
      + intros l D. apply update_other, D. }
  unfold method1. fold h1. unfold defineProperty.
  cbn [ToPropertyDescriptor a_get a_set a_value a_writable a_enumerable
       a_configurable fn_field_of bind present orb andb].
  unfold define_own. rewrite N1, X1.
  set (o2 := with_props (h1 global) _).
  set (h2 := update h1 global o2).
  assert (own "commonjsGlobal" (props (h2 global)) = None) as G2.
  { unfold h2. rewrite update_same. unfold o2. cbn [with_props props].
    rewrite own_put_other by discriminate. rewrite K1 by discriminate. exact G. }
  unfold assign. rewrite G2.
  assert (extensible (h2 global) = true) as ->.
  { unfold h2. rewrite update_same. exact X1. }
  cbn [fst snd]. split; [reflexivity|].
  rewrite update_same. cbn [with_props props].
  unfold h2 at 1 2 3. rewrite update_same. unfold o2 at 1 2 3.
  cbn [with_props props].
  repeat split.
  - rewrite own_put_other by discriminate. rewrite own_put_same. reflexivity.
  - apply own_put_same.
  - intros k D1 D2. rewrite !own_put_other by auto. apply K1, D1.
  - intros l D. rewrite update_other by exact D. unfold h2.
    rewrite update_other by exact D. apply L1, D.
Qed.

Lemma method1_installs_polyfill_witness :
  snd (method1 silent (VObject 1%nat) bare) = [PolyfillApplied] /\
  own "navigator" (props (fst (method1 silent (VObject 1%nat) bare) global))
  = Some (Data (VObject 1%nat) true true true).
Proof.
  destruct (method1_installs_polyfill silent (VObject 1%nat) bare
              eq_refl (or_introl eq_refl) eq_refl) as (T & N & _).
  split; [exact T|exact N].
Defined.

(** X18.  When the navigator of the global object is not configurable,
    Method 1 changes nothing at all: the [delete] is refused silently, the
    definition raises, the warning is printed, and the assignment of
    commonjsGlobal that follows in the [try] block is never reached. *)
Theorem method1_leaves_locked_navigator
        (acc : accessors) (navigator : jsval) (h : heap) (p : property) :
  own "navigator" (props (h global)) = Some p ->
  configurable_of p = false ->
  method1 acc navigator h = (h, [PolyfillWarning]).
Proof.
  intros P C. unfold method1, delete. rewrite P, C.
  unfold defineProperty.
  cbn [ToPropertyDescriptor a_get a_set a_value a_writable a_enumerable
       a_configurable fn_field_of bind present orb andb].
  unfold define_own. rewrite P.
  destruct p as [v w e c|g s e c]; cbn [configurable_of] in C; subst c;
    reflexivity.
Qed.

Lemma method1_leaves_locked_navigator_witness :
  method1 silent (VObject 1%nat) locked = (locked, [PolyfillWarning]).
Proof.
  apply (method1_leaves_locked_navigator
           silent (VObject 1%nat) locked
           (Accessor (Some 7%nat) None true false));
    reflexivity.
Defined.

(** X19.  Called on the global object for "navigator", the replacement of
    [Object.defineProperty] never raises, whatever the heap and the
    descriptor (not an object, malformed, refused): it returns the global
    object, and no other object is touched. *)
Theorem patched_never_raises_on_global_navigator
        (acc : accessors) (h : heap) (arg : argument) :
  let r := patched acc h (VObject global) "navigator" arg in
  returned r = Ok (VObject global) /\
  (forall l, l <> global -> heap_after r l = h l).
Proof.
  cbv zeta. rewrite patched_global_navigator. unfold defineProperty.
  destruct (ToPropertyDescriptor (Attributes (spread arg))) as [d|e];
    [|split; reflexivity].
  destruct (define_own (h global) "navigator" d) as [o|];
    [|split; reflexivity].
  split; [reflexivity|]. intros l D. apply update_other, D.
Qed.

(** X20.  A descriptor with a [get] or a [set] never defines the navigator
    of the global object through the replacement: together with the forced
    [writable: true] it is not a valid descriptor, the built-in raises, and
    the replacement prints its bypass line and returns as if the definition
    had been made.  The heap is unchanged. *)
Theorem accessor_descriptor_is_bypassed
        (acc : accessors) (h : heap) (a : attributes) :
  a_get a <> None \/ a_set a <> None ->
  patched acc h (VObject global) "navigator" (Attributes a)
  = mkOutcome h [Bypassed] (Ok (VObject global)).
Proof.
  intros A. rewrite patched_global_navigator. unfold defineProperty.
  assert (ToPropertyDescriptor (Attributes (spread (Attributes a)))
          = Throw TypeError) as ->; [|reflexivity].
  unfold ToPropertyDescriptor.
  cbn [spread a_get a_set a_value a_writable a_enumerable a_configurable].
  destruct (a_get a) as [[|f|]|], (a_set a) as [[|f'|]|];
    cbn [fn_field_of fn_of bind present orb andb]; try reflexivity;
    try (destruct (a_value a); reflexivity).
  destruct A as [A|A]; contradiction A; reflexivity.
Qed.

Lemma accessor_descriptor_is_bypassed_witness :
  patched silent bare (VObject global) "navigator"
          (Attributes (mkAttributes None None (Some (FnFunction 5%nat)) None
                                    None None))
  = mkOutcome bare [Bypassed] (Ok (VObject global)).
Proof.
  apply (accessor_descriptor_is_bypassed
           silent bare
           (mkAttributes None None (Some (FnFunction 5%nat)) None None None)).
  left. discriminate.
Defined.

(** X21.  For any other property name the replacement is the built-in:
    the same heap, the same result or fault, nothing printed, provided the
    test of line 45 itself does not raise (the object is the global one, or
    reading global.commonjsGlobal answers). *)
Theorem patched_is_builtin_for_other_names
        (acc : accessors) (h : heap) (obj : jsval) (prop : string)
        (arg : argument) :
  prop <> "navigator"%string ->
  obj = VObject global \/
  (exists v, read acc h global "commonjsGlobal" = Ok v) ->
  patched acc h obj prop arg
  = mkOutcome (fst (defineProperty h obj prop arg)) []
              (snd (defineProperty h obj prop arg)).
Proof.
  intros N R. unfold patched.
  assert (exists b, (if same obj (VObject global) then Ok true
                     else bind (read acc h global "commonjsGlobal")
                               (fun cg => Ok (same obj cg))) = Ok b) as [b ->].
  { destruct R as [->|[v E]].
    - rewrite same_refl. eexists; reflexivity.
    - destruct (same obj (VObject global)); [eexists; reflexivity|].
      rewrite E. eexists; reflexivity. }
  destruct (String.eqb_spec prop "navigator"); [contradiction|].
  rewrite andb_false_r.
  destruct (defineProperty h obj prop arg); reflexivity.
Qed.

Lemma patched_is_builtin_for_other_names_witness :
  patched silent bare (VObject 3%nat) "userAgent"
          (Attributes (mkAttributes (Some (VStr "node.js")) None None None
                                    None None))
  = mkOutcome
      (update bare 3%nat
              (mkObject [("userAgent", Data (VStr "node.js") false false false)]
                        true))
      [] (Ok (VObject 3%nat)).
Proof.
  apply (patched_is_builtin_for_other_names
           silent bare (VObject 3%nat) "userAgent"
           (Attributes (mkAttributes (Some (VStr "node.js")) None None None
                                     None None))).
  - discriminate.
  - right. exists VUndefined. reflexivity.
Defined.

(** X22.  Once the navigator of the global object is a writable and
    configurable data property (as Method 1 leaves it), it stays one through
    any sequence of calls of the replacement, whatever their objects, names
    and descriptors. *)
Theorem navigator_stays_open
        (acc : accessors) (h : heap) (calls : list call) :
  navigator_open h = true ->
  navigator_open (run acc h calls) = true.
Proof.
  revert h. induction calls as [|c calls IH]; intros h O; [exact O|].
  cbn [run]. apply IH, patched_keeps_navigator_open, O.
Qed.

Lemma navigator_stays_open_witness :
  navigator_open
    (run silent (fst (method1 silent (VObject 1%nat) bare))
         [mkCall (VObject global) "navigator"
                 (Attributes (mkAttributes (Some (VStr "sdk")) (Some false) None
                                           None None (Some false)));
          mkCall (VObject global) "navigator" NotAnObject])
  = true.
Proof.
  apply (navigator_stays_open silent (fst (method1 silent (VObject 1%nat) bare))).
  reflexivity.
Defined.

(** X23.  A navigator of the global object that is not configurable is
    frozen by the replacement: no sequence of its calls changes the
    property in any way, since the forced [configurable: true] makes every
    definition of it fail. *)
Theorem locked_navigator_is_frozen
        (acc : accessors) (h : heap) (calls : list call) (p : property) :
  own "navigator" (props (h global)) = Some p ->
  configurable_of p = false ->
  own "navigator" (props (run acc h calls global)) = Some p.
Proof.
  revert h. induction calls as [|c calls IH]; intros h P C; [exact P|].
  cbn [run]. apply IH; [|exact C].
  apply patched_keeps_locked_navigator; assumption.
Qed.

Lemma locked_navigator_is_frozen_witness :
  own "navigator"
      (props (run silent locked
                  [mkCall (VObject global) "navigator"
                          (Attributes (mkAttributes (Some (VStr "sdk")) None None
                                                    None None None))]
                  global))
  = Some (Accessor (Some 7%nat) None true false).
Proof.
  apply (locked_navigator_is_frozen silent locked); reflexivity.
Defined.

(** X24.  The replacement is not the built-in made safe: a navigator that
    is writable but not configurable can be given a new value by the
    built-in, while the same call through the replacement changes nothing,
    prints the bypass line and still returns the object. *)
Theorem patched_refuses_what_builtin_allows
        (acc : accessors) (h : heap) (v v' : jsval) (e : bool) :
  own "navigator" (props (h global)) = Some (Data v true e false) ->
  let arg := Attributes (mkAttributes (Some v') None None None None None) in
  own "navigator"
      (props (fst (defineProperty h (VObject global) "navigator" arg) global))
  = Some (Data v' true e false) /\
  snd (defineProperty h (VObject global) "navigator" arg) = Ok (VObject global) /\
  patched acc h (VObject global) "navigator" arg
  = mkOutcome h [Bypassed] (Ok (VObject global)).
Proof.
  intros P arg. rewrite patched_global_navigator. unfold defineProperty, arg.
  cbn [ToPropertyDescriptor spread a_get a_set a_value a_writable a_enumerable
       a_configurable fn_field_of bind present orb andb].
  unfold define_own. rewrite P.
  cbn [allowed orb andb negb or_default d_configurable d_enumerable d_writable
       d_value agrees is_accessor_descriptor d_get d_set present fst snd].
  rewrite update_same. cbn [with_props props]. rewrite own_put_same.
  repeat split.
Qed.

Lemma patched_refuses_what_builtin_allows_witness :
  let h := update bare global
                  (mkObject [("navigator", Data (VStr "old") true true false)]
                            true) in
  patched silent h (VObject global) "navigator"
          (Attributes (mkAttributes (Some (VStr "new")) None None None None None))
  = mkOutcome h [Bypassed] (Ok (VObject global)).
Proof.
  intros h.
  apply (proj2 (proj2 (patched_refuses_what_builtin_allows
                         silent h (VStr "old") (VStr "new") true eq_refl))).
Defined.

End LoaderFacts.
